(** * Eventify: the event query and membership engine

    A shallow embedding of the Express routes of the events router
    ([routes/events.js]), of the Mongoose [Event] and [User] schemas they
    use, and of the few JavaScript and MongoDB primitives the routes rely
    on (number coercion, [Date] field arithmetic, cursors).

    Conventions.
    - An [ObjectId] is an integer; a collection is a finite map from ids to
      documents, the key being the document's [_id].
    - An instant is a number of milliseconds since the epoch, as in a
      JavaScript [Date].
    - JavaScript numbers are modelled on the integers of magnitude up to
      2^53, which a double holds exactly, together with [NaN] and the two
      infinities; any other number (a fraction, a larger magnitude, negative
      zero) is [Untracked]: the model does not follow its value.
    - A string is the sequence of the bytes of its UTF-8 encoding.
    - A handler is a function from the request and the database to the new
      database and the JSON reply. *)

From Stdlib Require Import ZArith Lia List Bool Ascii String Sorting.Sorted Permutation.
From stdpp Require Import base option list gmap strings sorting.

Local Open Scope Z_scope.

(** ** JavaScript numbers *)
Module Js.

Inductive Num :=
| Fin (z : Z)
| NaN
| PInf
| NInf
| Untracked.

#[global] Instance Num_eq_dec : EqDecision Num.
Proof. solve_decision. Defined.

(** A JavaScript value of the kinds a query parameter or its default takes:
    a number (the destructuring default) or a string (from [req.query]). *)
Inductive Val :=
| VNum (n : Num)
| VStr (s : string).

#[global] Instance Val_eq_dec : EqDecision Val.
Proof. solve_decision. Defined.

(** 2^53: every integer up to it in magnitude is a double. *)
Definition maxSafe : Z := 9007199254740992.

(** The number an integer result stands for: itself when a double holds it
    exactly; beyond that the result is rounded, and not followed. *)
Definition ofZ (z : Z) : Num :=
  if Z.abs z <=? maxSafe then Fin z else Untracked.

(** *** [StringToNumber]

    The grammar of [StringNumericLiteral]: blanks, then nothing, or a signed
    decimal literal with an optional fraction and exponent, or [Infinity],
    or an unsigned binary, octal or hexadecimal literal, then blanks. *)

Definition code (c : ascii) : Z := Z.of_nat (nat_of_ascii c).

(** The string after its first character, when that is a [WhiteSpace] or a
    [LineTerminator]: TAB, LF, VT, FF, CR, SP, and in UTF-8 U+00A0, U+1680,
    U+2000 to U+200A, U+2028, U+2029, U+202F, U+205F, U+3000 and U+FEFF. *)
Definition afterSpace (s : string) : option string :=
  match s with
  | String a r1 =>
      let x := code a in
      if (x =? 32) || ((9 <=? x) && (x <=? 13)) then Some r1
      else
        match r1 with
        | String b r2 =>
            let y := code b in
            if (x =? 194) && (y =? 160) then Some r2
            else
              match r2 with
              | String c r3 =>
                  let z := code c in
                  if ((x =? 225) && (y =? 154) && (z =? 128))
                     || ((x =? 226) && (y =? 128)
                         && (((128 <=? z) && (z <=? 138))
                             || (z =? 168) || (z =? 169) || (z =? 175)))
                     || ((x =? 226) && (y =? 129) && (z =? 159))
                     || ((x =? 227) && (y =? 128) && (z =? 128))
                     || ((x =? 239) && (y =? 187) && (z =? 191))
                  then Some r3 else None
              | EmptyString => None
              end
        | EmptyString => None
        end
  | EmptyString => None
  end.

Fixpoint skipSpaces (fuel : nat) (s : string) : string :=
  match fuel with
  | O => s
  | S fuel' =>
      match afterSpace s with
      | Some rest => skipSpaces fuel' rest
      | None => s
      end
  end.

Definition dropSpaces (s : string) : string := skipSpaces (String.length s) s.

(** Nothing but blanks. *)
Definition blank (s : string) : bool := String.eqb (dropSpaces s) "".

(** The digit a character stands for in a base up to 16. *)
Definition digit_of (base : Z) (c : ascii) : option Z :=
  let n := code c in
  let d :=
    if (48 <=? n) && (n <=? 57) then n - 48
    else if (97 <=? n) && (n <=? 102) then n - 87
    else if (65 <=? n) && (n <=? 70) then n - 55
    else 16 in
  if d <? base then Some d else None.

(** The longest run of digits at the head of a string, and what follows. *)
Fixpoint digits (base : Z) (s : string) : string * string :=
  match s with
  | String c rest =>
      match digit_of base c with
      | Some _ => let '(run, after) := digits base rest in (String c run, after)
      | None => (EmptyString, s)
      end
  | EmptyString => (EmptyString, EmptyString)
  end.

Fixpoint digits_from (base acc : Z) (s : string) : Z :=
  match s with
  | EmptyString => acc
  | String c rest => digits_from base (base * acc + default 0 (digit_of base c)) rest
  end.

Definition len (s : string) : Z := Z.of_nat (String.length s).

Fixpoint dropPrefix (p s : string) : option string :=
  match p, s with
  | EmptyString, _ => Some s
  | String a p', String b s' => if Ascii.eqb a b then dropPrefix p' s' else None
  | String _ _, EmptyString => None
  end.

(** [0b], [0o] and [0x] literals: no sign, one digit at least. *)
Definition nonDecimalLiteral (s : string) : option Num :=
  match s with
  | String zero (String letter rest) =>
      let l := code letter in
      let base :=
        if (l =? 120) || (l =? 88) then 16
        else if (l =? 111) || (l =? 79) then 8
        else if (l =? 98) || (l =? 66) then 2
        else 0 in
      if (code zero =? 48) && negb (base =? 0) then
        let '(run, after) := digits base rest in
        if negb (String.eqb run "") && blank after
        then Some (ofZ (digits_from base 0 run))
        else None
      else None
  | _ => None
  end.

(** A sign, if there is one: whether it is [-], and what follows. *)
Definition signOf (s : string) : bool * string :=
  match s with
  | String c rest =>
      if code c =? 43 then (false, rest)
      else if code c =? 45 then (true, rest)
      else (false, s)
  | EmptyString => (false, s)
  end.

(** [ExponentPart], if there is one: its value, and what follows. *)
Definition exponentOf (s : string) : Z * string :=
  match s with
  | String c rest =>
      if (code c =? 101) || (code c =? 69) then
        let '(neg, rest1) := signOf rest in
        let '(run, after) := digits 10 rest1 in
        if String.eqb run "" then (0, s)
        else ((if neg then -1 else 1) * digits_from 10 0 run, after)
      else (0, s)
  | EmptyString => (0, s)
  end.

(** The number [mantissa * 10 ^ exponent] with a sign, the mantissa being
    written with [width] digits: the integer it is, when it is one that a
    double holds exactly; negative zero, a fraction and a larger magnitude
    are not followed. *)
Definition decimalValue (neg : bool) (mantissa width exponent : Z) : Num :=
  let sign := if neg then -1 else 1 in
  if mantissa =? 0 then (if neg then Untracked else Fin 0)
  else if 0 <=? exponent then
    (if 16 <? exponent then Untracked else ofZ (sign * (mantissa * 10 ^ exponent)))
  else if width <? - exponent then Untracked
  else if mantissa mod 10 ^ (- exponent) =? 0
       then ofZ (sign * (mantissa / 10 ^ (- exponent)))
       else Untracked.

(** [StrDecimalLiteral], followed by blanks only. *)
Definition decimalLiteral (s : string) : Num :=
  let '(neg, s1) := signOf s in
  match dropPrefix "Infinity" s1 with
  | Some after => if blank after then (if neg then NInf else PInf) else NaN
  | None =>
      let '(whole, s2) := digits 10 s1 in
      let '(fraction, s3) :=
        match s2 with
        | String c rest => if code c =? 46 then digits 10 rest else (EmptyString, s2)
        | EmptyString => (EmptyString, s2)
        end in
      if String.eqb whole "" && String.eqb fraction "" then NaN
      else
        let '(e, s4) := exponentOf s3 in
        if blank s4
        then decimalValue neg (digits_from 10 0 (whole ++ fraction))
                          (len whole + len fraction) (e - len fraction)
        else NaN
  end.

(** [StringToNumber]: [NaN] for a string that is no numeric literal. *)
Definition StringToNumber (s : string) : Num :=
  let s1 := dropSpaces s in
  if String.eqb s1 "" then Fin 0
  else
    match nonDecimalLiteral s1 with
    | Some n => n
    | None => decimalLiteral s1
    end.

Definition ToNumber (v : Val) : Num :=
  match v with
  | VNum n => n
  | VStr s => StringToNumber s
  end.

(** [a * b] on numbers; the sign of a zero product is not followed. *)
Definition mul (a b : Num) : Num :=
  match a, b with
  | NaN, _ | _, NaN => NaN
  | Untracked, _ | _, Untracked => Untracked
  | Fin x, Fin y => ofZ (x * y)
  | Fin x, PInf | PInf, Fin x =>
      if x =? 0 then NaN else if 0 <? x then PInf else NInf
  | Fin x, NInf | NInf, Fin x =>
      if x =? 0 then NaN else if 0 <? x then NInf else PInf
  | PInf, PInf | NInf, NInf => PInf
  | PInf, NInf | NInf, PInf => NInf
  end.

(** [a - b] on numbers. *)
Definition sub (a b : Num) : Num :=
  match a, b with
  | NaN, _ | _, NaN => NaN
  | Untracked, _ | _, Untracked => Untracked
  | Fin x, Fin y => ofZ (x - y)
  | Fin _, PInf => NInf
  | Fin _, NInf => PInf
  | PInf, PInf | NInf, NInf => NaN
  | PInf, _ => PInf
  | NInf, _ => NInf
  end.

(** [Math.ceil(a / b)]: the quotient is rounded up at once, so the model
    stays on the integers.  For integers up to 2^53 the rounding of the
    quotient to a double does not move it across an integer, so that the
    ceiling is the exact one. *)
Definition ceil_div (a b : Num) : Num :=
  match a, b with
  | NaN, _ | _, NaN => NaN
  | Untracked, _ | _, Untracked => Untracked
  | Fin x, Fin y =>
      if y =? 0 then
        (if x =? 0 then NaN else if 0 <? x then PInf else NInf)
      else Fin (- ((- x) / y))
  | Fin _, (PInf | NInf) => Fin 0
  | (PInf | NInf), (PInf | NInf) => NaN
  | PInf, Fin y => if 0 <=? y then PInf else NInf
  | NInf, Fin y => if 0 <=? y then NInf else PInf
  end.

(** The binary operators coerce both operands with [ToNumber]. *)
Definition times (a b : Val) : Num := mul (ToNumber a) (ToNumber b).
Definition minus (a b : Val) : Num := sub (ToNumber a) (ToNumber b).

End Js.

(** ** Dates

    The field arithmetic of ECMAScript's [Date] on the proleptic Gregorian
    calendar.  Months are numbered from 0, days of the month from 1, week
    days from 0 (Sunday). *)
Module Date.

Definition msPerDay : Z := 86400000.

(** [Day(t)] and [TimeWithinDay(t)]. *)
Definition Day (t : Z) : Z := t / msPerDay.
Definition TimeWithinDay (t : Z) : Z := t mod msPerDay.

(** [WeekDay]: day 0 (1970-01-01) was a Thursday. *)
Definition WeekDayOfDay (d : Z) : Z := (d + 4) mod 7.

(** Day number of the civil date [y]-[m]-[d], with [m] in 1..12. *)
Definition days_from_civil (y m d : Z) : Z :=
  let y' := if m <=? 2 then y - 1 else y in
  let era := y' / 400 in
  let yoe := y' - era * 400 in
  let mp := if 2 <? m then m - 3 else m + 9 in
  let doy := (153 * mp + 2) / 5 + d - 1 in
  let doe := yoe * 365 + yoe / 4 - yoe / 100 + doy in
  era * 146097 + doe - 719468.

(** Civil date (year, month in 1..12, day of the month) of a day number. *)
Definition civil_from_days (z : Z) : Z * Z * Z :=
  let z' := z + 719468 in
  let era := z' / 146097 in
  let doe := z' - era * 146097 in
  let yoe := (doe - doe / 1460 + doe / 36524 - doe / 146096) / 365 in
  let doy := doe - (365 * yoe + yoe / 4 - yoe / 100) in
  let mp := (5 * doy + 2) / 153 in
  let d := doy - (153 * mp + 2) / 5 + 1 in
  let m := if mp <? 10 then mp + 3 else mp - 9 in
  (if m <=? 2 then yoe + era * 400 + 1 else yoe + era * 400, m, d).

Definition YearFromDay (d : Z) : Z := (civil_from_days d).1.1.
Definition MonthFromDay (d : Z) : Z := (civil_from_days d).1.2 - 1.
Definition DateFromDay (d : Z) : Z := (civil_from_days d).2.

(** [MakeDay(year, month, date)]: the month may lie outside 0..11 and the
    date outside the month; both carry over. *)
Definition MakeDay (year month date : Z) : Z :=
  let ym := year + month / 12 in
  let mn := month mod 12 in
  days_from_civil ym (mn + 1) 1 + date - 1.

Definition MakeDate (day time : Z) : Z := day * msPerDay + time.

End Date.

(** ** The request environment

    What a handler reads from its surroundings: the clock ([new Date()]),
    the server's time zone, the database's regular-expression engine and
    the way the database server reads a skip or limit count that is not an
    integer. *)
Record Env := {
  now : Z;
  (** offset of local time from UTC in milliseconds (a fixed offset: no
      daylight-saving transitions) *)
  localTZA : Z;
  (** [regexTest pattern subject]: the [$regex] match with option [i], for
      a pattern the database accepts *)
  regexTest : string -> string -> bool;
  (** whether the database accepts the pattern: a query with a pattern
      that does not compile is refused *)
  regexValid : string -> bool;
  (** a count that is no integer the model follows ([NaN], an infinity, an
      untracked number) is read as this integer, or the command is
      refused *)
  nonIntegerCount : option Z
}.

(** *** Local-time [Date] methods

    Local time is UTC moved by the fixed offset [tza].  A zone whose offset
    changes in the course of the year (daylight saving) is outside the
    model: there the local midnights that [setDate] and [new Date(y, m, d)]
    give are not a whole number of 24 hours apart. *)
Section LocalDate.
Variable tza : Z.

Definition LocalTime (t : Z) : Z := t + tza.
Definition UTC (t : Z) : Z := t - tza.

Definition getFullYear (t : Z) : Z := Date.YearFromDay (Date.Day (LocalTime t)).
Definition getMonth (t : Z) : Z := Date.MonthFromDay (Date.Day (LocalTime t)).
Definition getDate (t : Z) : Z := Date.DateFromDay (Date.Day (LocalTime t)).
Definition getDay (t : Z) : Z := Date.WeekDayOfDay (Date.Day (LocalTime t)).

(** [new Date(year, month, date)]; the reading of a year below 100 as
    19xx is left out. *)
Definition newDate (year month date : Z) : Z :=
  UTC (Date.MakeDate (Date.MakeDay year month date) 0).

(** [d.setDate(date)], returning the new time value of [d] *)
Definition setDate (t date : Z) : Z :=
  let lt := LocalTime t in
  UTC (Date.MakeDate
         (Date.MakeDay (Date.YearFromDay (Date.Day lt))
                       (Date.MonthFromDay (Date.Day lt)) date)
         (Date.TimeWithinDay lt)).
End LocalDate.

(** ** Documents *)

Abbreviation ObjectId := Z (only parsing).

(** The [Event] schema; [maxAttendees] is a number or [null].  The
    timestamps and the version key that Mongoose adds are left out. *)
Record Event := mkEvent {
  title : string;
  creatorName : string;
  creator : ObjectId;
  description : string;
  location : string;
  dateTime : Z;
  attendeeCount : Z;
  attendees : list ObjectId;
  maxAttendees : option Z;
  status : string;
  category : string
}.

(** The facets of the [User] schema the event routes touch. *)
Record User := mkUser {
  name : string;
  joinedEvents : list ObjectId;
  createdEvents : list ObjectId
}.

Record Db := mkDb {
  events : gmap Z Event;
  users : gmap Z User
}.

#[global] Instance Event_eq_dec : EqDecision Event.
Proof. solve_decision. Defined.
#[global] Instance User_eq_dec : EqDecision User.
Proof. solve_decision. Defined.

Definition set_attendees (l : list ObjectId) (e : Event) : Event :=
  mkEvent (title e) (creatorName e) (creator e) (description e) (location e)
          (dateTime e) (attendeeCount e) l (maxAttendees e) (status e) (category e).

Definition set_attendeeCount (n : Z) (e : Event) : Event :=
  mkEvent (title e) (creatorName e) (creator e) (description e) (location e)
          (dateTime e) n (attendees e) (maxAttendees e) (status e) (category e).

Definition set_events (m : gmap Z Event) (db : Db) : Db := mkDb m (users db).
Definition set_users (m : gmap Z User) (db : Db) : Db := mkDb (events db) m.

(** ** Strings: [trim] and the length tests

    [trim] strips the ASCII blanks and [strlen] counts bytes: on ASCII text
    these are JavaScript's [trim] and the length that express-validator
    (code points) and Mongoose (UTF-16 units) both count.  Outside ASCII the
    three counts differ and more characters are blanks. *)

Fixpoint isAscii (s : string) : bool :=
  match s with
  | EmptyString => true
  | String c rest => (Nat.ltb (nat_of_ascii c) 128 && isAscii rest)%bool
  end.

Definition is_space (c : ascii) : bool :=
  let n := nat_of_ascii c in
  (Nat.eqb n 32 || (Nat.leb 9 n && Nat.leb n 13))%bool.

Fixpoint ltrim (s : string) : string :=
  match s with
  | EmptyString => EmptyString
  | String c rest => if is_space c then ltrim rest else s
  end.

Fixpoint rtrim (s : string) : string :=
  match s with
  | EmptyString => EmptyString
  | String c rest =>
      match rtrim rest with
      | EmptyString => if is_space c then EmptyString else String c EmptyString
      | r => String c r
      end
  end.

Definition trim (s : string) : string := rtrim (ltrim s).

Definition strlen (s : string) : Z := Z.of_nat (String.length s).

(** [isLength({min, max})] *)
Definition isLength (lo hi : Z) (s : string) : bool :=
  (lo <=? strlen s) && (strlen s <=? hi).

Definition nonempty (s : string) : bool := negb (String.eqb s "").

Definition categories : list string :=
  ["conference"; "workshop"; "meetup"; "webinar"; "social"; "other"]%string.
Definition statuses : list string :=
  ["upcoming"; "ongoing"; "completed"; "cancelled"]%string.

Definition isIn (l : list string) (s : string) : bool :=
  existsb (String.eqb s) l.

(** ** Mongoose: validation, [save], updates *)

(** The validators of the [Event] schema, path by path. *)
Definition valid_title (s : string) : bool := nonempty s && isLength 3 100 s.
Definition valid_creatorName (s : string) : bool := nonempty s.
Definition valid_description (s : string) : bool := nonempty s && isLength 10 1000 s.
Definition valid_location (s : string) : bool := nonempty s && isLength 3 200 s.
Definition valid_dateTime (env : Env) (v : Z) : bool := now env <? v.
Definition valid_attendeeCount (n : Z) : bool := 0 <=? n.
Definition valid_maxAttendees (m : option Z) : bool :=
  match m with
  | None => true
  | Some n => 1 <=? n
  end.
Definition valid_status (s : string) : bool := isIn statuses s.
Definition valid_category (s : string) : bool := isIn categories s.

(** Document validation, as [save] runs it. *)
Definition schemaValid (env : Env) (e : Event) : bool :=
  valid_title (title e) && valid_creatorName (creatorName e)
  && valid_description (description e) && valid_location (location e)
  && valid_dateTime env (dateTime e) && valid_attendeeCount (attendeeCount e)
  && valid_maxAttendees (maxAttendees e) && valid_status (status e)
  && valid_category (category e).

(** [eventSchema.pre('save')] *)
Definition preSave (e : Event) : Event :=
  set_attendeeCount (Z.of_nat (length (attendees e))) e.

(** [event.save()] on a document loaded from the collection: validation
    (Mongoose's built-in [pre('save')] hook, which checks the paths read
    from the database as well as the modified ones), then the schema's own
    [pre('save')] hook, then the write.  [None] stands for the rejected
    promise. *)
Definition save (env : Env) (id : ObjectId) (e : Event) (db : Db) : option Db :=
  if schemaValid env e
  then Some (set_events (<[id := preSave e]> (events db)) db)
  else None.

(** [event.save()] on a new document: the write is an insert, refused when
    the id is taken. *)
Definition saveNew (env : Env) (id : ObjectId) (e : Event) (db : Db) : option Db :=
  match events db !! id with
  | Some _ => None
  | None => save env id e db
  end.

(** [User.findByIdAndUpdate(uid, { $push: { field: x } })]: nothing happens
    when there is no such user. *)
Definition pushJoined (uid x : ObjectId) (db : Db) : Db :=
  set_users (alter (fun u => mkUser (name u) (joinedEvents u ++ [x]) (createdEvents u))
                   uid (users db)) db.

Definition pushCreated (uid x : ObjectId) (db : Db) : Db :=
  set_users (alter (fun u => mkUser (name u) (joinedEvents u) (createdEvents u ++ [x]))
                   uid (users db)) db.

(** [$pull]: every occurrence goes. *)
Definition pull (x : ObjectId) (l : list ObjectId) : list ObjectId :=
  List.filter (fun y => negb (y =? x)) l.

Definition pullJoined (uid x : ObjectId) (db : Db) : Db :=
  set_users (alter (fun u => mkUser (name u) (pull x (joinedEvents u)) (createdEvents u))
                   uid (users db)) db.

Definition pullCreated (uid x : ObjectId) (db : Db) : Db :=
  set_users (alter (fun u => mkUser (name u) (joinedEvents u) (pull x (createdEvents u)))
                   uid (users db)) db.

(** [User.updateMany({ joinedEvents: x }, { $pull: { joinedEvents: x } })] *)
Definition pullJoinedEverywhere (x : ObjectId) (db : Db) : Db :=
  set_users ((fun u => mkUser (name u) (pull x (joinedEvents u)) (createdEvents u))
               <$> users db) db.

(** [attendees.includes(id)] on a Mongoose array of ObjectIds *)
Definition includes (x : ObjectId) (l : list ObjectId) : bool :=
  existsb (Z.eqb x) l.

(** ** Requests and replies *)

(** The authenticated user the [auth] middleware leaves in [req.user]. *)
Record Actor := mkActor {
  actor_id : ObjectId;
  actor_name : string
}.

(** A date string from a request, read once and for all, by what the two
    readers make of it: [isISO8601] of the validation chains and
    [new Date].
    - [DateIso t]: [isISO8601] accepts it and [new Date] parses it to the
      instant [t] (['2024-03-15T12:00']);
    - [DateIsoUnparsed cast]: [isISO8601] accepts it and [new Date] gives an
      invalid date (['20240315'], ['2024-W11-4']); [cast] is what Mongoose's
      cast of the string to a [Date] gives, which reads a string of digits
      as a number of milliseconds, [None] when the cast fails;
    - [DateLoose t]: [isISO8601] refuses it and [new Date] parses it to [t]
      (['March 15, 2024']);
    - [DateOther raw]: any other string, which [isISO8601] refuses and
      [new Date] turns into an invalid date. *)
Inductive DateStr :=
| DateIso (t : Z)
| DateOther (raw : string)
| DateIsoUnparsed (cast : option Z)
| DateLoose (t : Z).

Definition date_truthy (d : DateStr) : bool :=
  match d with
  | DateOther raw => nonempty raw
  | _ => true
  end.

(** [new Date(value)]: the instant, [None] for an invalid date. *)
Definition parseDate (d : DateStr) : option Z :=
  match d with
  | DateIso t | DateLoose t => Some t
  | DateOther _ | DateIsoUnparsed _ => None
  end.

(** The cast of the string to the schema's [Date] in [new Event({...})]. *)
Definition castString (d : DateStr) : option Z :=
  match d with
  | DateIso t | DateLoose t => Some t
  | DateIsoUnparsed cast => cast
  | DateOther _ => None
  end.

(** [req.body] of the creation route. *)
Record CreateBody := mkCreateBody {
  c_title : option string;
  c_description : option string;
  c_location : option string;
  c_dateTime : option DateStr;
  c_category : option string
}.

(** [req.body] of the update route: any path of the schema may be there;
    [maxAttendees] may be given as [null]. *)
Record UpdateBody := mkUpdateBody {
  u_title : option string;
  u_description : option string;
  u_location : option string;
  u_dateTime : option DateStr;
  u_category : option string;
  u_status : option string;
  u_creator : option ObjectId;
  u_creatorName : option string;
  u_attendees : option (list ObjectId);
  u_attendeeCount : option Z;
  u_maxAttendees : option (option Z)
}.

(** [req.query] of the listing route. *)
Record ListQuery := mkListQuery {
  q_search : option string;
  q_dateFilter : option string;
  q_startDate : option DateStr;
  q_endDate : option DateStr;
  q_page : option string;
  q_limit : option string
}.

Record Pagination := mkPagination {
  current : Js.Val;
  pages : Js.Num;
  total : Z
}.

(** The JSON replies.  A populated reference is shown as the id it stands
    for; the [errors] and [error] details of a failure are left out. *)
Inductive Reply :=
| Fail (status : Z) (message : string)
| Done (status : Z) (message : string) (event : option Event)
| Removed (message : string)
| Listing (events : list Event) (pagination : Pagination).

(** The error kinds of the interface, as the routes send them. *)
Definition ValidationError : Reply := Fail 400 "Validation failed".
Definition NotFound : Reply := Fail 404 "Event not found".
Definition ForbiddenUpdate : Reply := Fail 403 "You can only update your own events".
Definition ForbiddenDelete : Reply := Fail 403 "You can only delete your own events".
Definition AlreadyMember : Reply := Fail 400 "You have already joined this event".
Definition CapacityExceeded : Reply := Fail 400 "Event is full".
Definition NotMember : Reply := Fail 400 "You are not attending this event".

Definition succeeded (r : Reply) : bool :=
  match r with
  | Fail _ _ => false
  | _ => true
  end.

(** ** The validation chains of the routes (express-validator) *)

(** A text field: [.trim().isLength({ min, max })]; a missing field counts
    as the empty string. *)
Definition check_text (lo hi : Z) (msg : string) (v : option string) : list string :=
  if isLength lo hi (trim (default ""%string v)) then [] else [msg].

(** The same behind [.optional()]: a missing field is skipped. *)
Definition check_text_opt (lo hi : Z) (msg : string) (v : option string) : list string :=
  match v with
  | None => []
  | Some s => if isLength lo hi (trim s) then [] else [msg]
  end.

(** [.isISO8601()] followed by the custom test that the date lies after the
    current time; [new Date(value) <= new Date()] is false on an invalid
    date, which therefore passes. *)
Definition check_date_value (env : Env) (d : DateStr) : list string :=
  match d with
  | DateIso t =>
      if t <=? now env then ["Event date must be in the future"%string] else []
  | DateIsoUnparsed _ => []
  | DateOther _ | DateLoose _ => ["Please enter a valid date and time"%string]
  end.

Definition check_date (env : Env) (v : option DateStr) : list string :=
  check_date_value env (default (DateOther "") v).

Definition check_date_opt (env : Env) (v : option DateStr) : list string :=
  match v with
  | None => []
  | Some d => check_date_value env d
  end.

Definition check_category_opt (v : option string) : list string :=
  match v with
  | None => []
  | Some s =>
      if isIn categories s then []
      else ["Invalid category. Must be one of: conference, workshop, meetup, webinar, social, other"%string]
  end.

(** [validationResult(req)] of the creation route *)
Definition createErrors (env : Env) (b : CreateBody) : list string :=
  check_text 3 100 "Title must be between 3 and 100 characters" (c_title b)
  ++ check_text 10 1000 "Description must be between 10 and 1000 characters" (c_description b)
  ++ check_text 3 200 "Location must be between 3 and 200 characters" (c_location b)
  ++ check_date env (c_dateTime b)
  ++ check_category_opt (c_category b).

(** [validationResult(req)] of the update route *)
Definition updateErrors (env : Env) (b : UpdateBody) : list string :=
  check_text_opt 3 100 "Title must be between 3 and 100 characters" (u_title b)
  ++ check_text_opt 10 1000 "Description must be between 10 and 1000 characters" (u_description b)
  ++ check_text_opt 3 200 "Location must be between 3 and 200 characters" (u_location b)
  ++ check_date_opt env (u_dateTime b).

Definition isEmpty (errs : list string) : bool :=
  match errs with
  | [] => true
  | _ => false
  end.

(** The sanitizers write the trimmed text back into [req.body]. *)
Definition sanitizeUpdate (b : UpdateBody) : UpdateBody :=
  mkUpdateBody (trim <$> u_title b) (trim <$> u_description b) (trim <$> u_location b)
               (u_dateTime b) (u_category b) (u_status b) (u_creator b)
               (u_creatorName b) (u_attendees b) (u_attendeeCount b) (u_maxAttendees b).

(** ** [GET /]: the listing route *)

(** The condition a query puts on [dateTime]. *)
Inductive DateCond :=
| GteLt (lo hi : Z)      (* { $gte: lo, $lt: hi } *)
| GteLte (lo hi : Z).    (* { $gte: lo, $lte: hi } *)

(** The [query] object handed to [Event.find] and [Event.countDocuments]. *)
Record Filter := mkFilter {
  f_or : option string;          (* the pattern of the two [$regex] tests *)
  f_dateTime : option DateCond
}.

(** [today]: local midnight of the current local day. *)
Definition todayOf (env : Env) : Z :=
  let tza := localTZA env in
  newDate tza (getFullYear tza (now env)) (getMonth tza (now env)) (getDate tza (now env)).

(** The [switch (dateFilter)]. *)
Definition dateBucket (env : Env) (dateFilter : string) : option DateCond :=
  let tza := localTZA env in
  let today := todayOf env in
  if String.eqb dateFilter "today" then
    let tomorrow := setDate tza today (getDate tza today + 1) in
    Some (GteLt today tomorrow)
  else if String.eqb dateFilter "current_week" then
    let startOfWeek := setDate tza today (getDate tza today - getDay tza today) in
    let endOfWeek := setDate tza startOfWeek (getDate tza startOfWeek + 7) in
    Some (GteLt startOfWeek endOfWeek)
  else if String.eqb dateFilter "last_week" then
    let lastWeekStart := setDate tza today (getDate tza today - getDay tza today - 7) in
    let lastWeekEnd := setDate tza lastWeekStart (getDate tza lastWeekStart + 7) in
    Some (GteLt lastWeekStart lastWeekEnd)
  else if String.eqb dateFilter "current_month" then
    let startOfMonth := newDate tza (getFullYear tza today) (getMonth tza today) 1 in
    let endOfMonth := newDate tza (getFullYear tza today) (getMonth tza today + 1) 1 in
    Some (GteLt startOfMonth endOfMonth)
  else if String.eqb dateFilter "last_month" then
    let lastMonthStart := newDate tza (getFullYear tza today) (getMonth tza today - 1) 1 in
    let lastMonthEnd := newDate tza (getFullYear tza today) (getMonth tza today) 1 in
    Some (GteLt lastMonthStart lastMonthEnd)
  else None.

(** The query object built from [req.query]; [None] when one of the two
    explicit dates is an invalid date, which [Event.find] refuses to cast. *)
Definition buildQuery (env : Env) (q : ListQuery) : option Filter :=
  let f_search :=
    match q_search q with
    | Some s => if nonempty s then Some s else None
    | None => None
    end in
  let bucket :=
    match q_dateFilter q with
    | Some f => if nonempty f then dateBucket env f else None
    | None => None
    end in
  match q_startDate q, q_endDate q with
  | Some sd, Some ed =>
      if date_truthy sd && date_truthy ed then
        match parseDate sd, parseDate ed with
        | Some a, Some b => Some (mkFilter f_search (Some (GteLte a b)))
        | _, _ => None
        end
      else Some (mkFilter f_search bucket)
  | _, _ => Some (mkFilter f_search bucket)
  end.

Definition dateMatches (c : DateCond) (t : Z) : bool :=
  match c with
  | GteLt lo hi => (lo <=? t) && (t <? hi)
  | GteLte lo hi => (lo <=? t) && (t <=? hi)
  end.

Definition matches (env : Env) (f : Filter) (e : Event) : bool :=
  match f_or f with
  | Some pat => regexTest env pat (title e) || regexTest env pat (description e)
  | None => true
  end
  && match f_dateTime f with
     | Some c => dateMatches c (dateTime e)
     | None => true
     end.

(** Whether the database accepts the query: the pattern of the [$regex]
    tests has to compile. *)
Definition patternOk (env : Env) (f : Filter) : bool :=
  match f_or f with
  | Some pat => regexValid env pat
  | None => true
  end.

(** The documents of the collection that satisfy the query. *)
Definition findAll (env : Env) (f : Filter) (db : Db) : list Event :=
  List.filter (matches env f) (map_to_list (events db)).*2.

(** [sort({ dateTime: -1 })]: later events first.  The sort has no second
    key and the database leaves the order of events with the same
    [dateTime] open; [sortByDateDesc] is one such order, and the only one
    when the dates differ. *)
Definition laterFirst (a b : Event) : Prop := dateTime b <= dateTime a.

#[global] Instance laterFirst_dec : RelDecision laterFirst.
Proof. intros a b. unfold laterFirst. apply _. Defined.

Definition sortByDateDesc (l : list Event) : list Event := merge_sort laterFirst l.

(** A count as the database server reads it: an integer as it is, any
    other number as the environment has it. *)
Definition readCount (env : Env) (n : Js.Num) : option Z :=
  match n with
  | Js.Fin z => Some z
  | _ => nonIntegerCount env
  end.

(** [.limit(lim).skip(skp)] on the sorted rows: the skip comes first; a
    negative skip is refused; a limit of 0 is no limit and a negative limit
    counts by its absolute value. *)
Definition cursor (env : Env) (lim skp : Js.Num) (rows : list Event) : option (list Event) :=
  match readCount env skp, readCount env lim with
  | Some s, Some l =>
      if s <? 0 then None
      else
        let rest := drop (Z.to_nat s) rows in
        Some (if l =? 0 then rest else take (Z.to_nat (Z.abs l)) rest)
  | _, _ => None
  end.

Definition pageOf (q : ListQuery) : Js.Val :=
  match q_page q with
  | Some s => Js.VStr s
  | None => Js.VNum (Js.Fin 1)
  end.

Definition limitOf (q : ListQuery) : Js.Val :=
  match q_limit q with
  | Some s => Js.VStr s
  | None => Js.VNum (Js.Fin 10)
  end.

Definition listEvents (env : Env) (q : ListQuery) (db : Db) : Reply :=
  let page := pageOf q in
  let limit := limitOf q in
  match buildQuery env q with
  | None => Fail 500 "Failed to get events"
  | Some query =>
      if negb (patternOk env query) then Fail 500 "Failed to get events"
      else
      let found := sortByDateDesc (findAll env query db) in
      match cursor env (Js.times limit (Js.VNum (Js.Fin 1)))
                   (Js.mul (Js.minus page (Js.VNum (Js.Fin 1))) (Js.ToNumber limit))
                   found with
      | None => Fail 500 "Failed to get events"
      | Some evs =>
          let total := Z.of_nat (length (findAll env query db)) in
          Listing evs
            (mkPagination page (Js.ceil_div (Js.Fin total) (Js.ToNumber limit)) total)
      end
  end.

(** ** [POST /]: creation *)

(** [new Event({ ... })]: the schema's setters trim the text paths and its
    defaults fill the rest. *)
Definition newEvent (actor : Actor) (b : CreateBody) (t : Z) : Event :=
  mkEvent (trim (default ""%string (trim <$> c_title b)))
          (trim (actor_name actor))
          (actor_id actor)
          (trim (default ""%string (trim <$> c_description b)))
          (trim (default ""%string (trim <$> c_location b)))
          t
          0
          []
          None
          "upcoming"
          (match c_category b with
           | Some c => if nonempty c then c else "other"%string
           | None => "other"%string
           end).

(** [newId] is the id Mongoose draws for the new document. *)
Definition createEvent (env : Env) (actor : Actor) (newId : ObjectId)
    (b : CreateBody) (db : Db) : Db * Reply :=
  if negb (isEmpty (createErrors env b)) then (db, ValidationError)
  else
    match c_dateTime b ≫= castString with
    | Some t =>
        match saveNew env newId (newEvent actor b t) db with
        | None => (db, Fail 500 "Failed to create event")
        | Some db1 =>
            let db2 := pushCreated (actor_id actor) newId db1 in
            (db2, Done 201 "Event created successfully" (events db2 !! newId))
        end
    | None => (db, Fail 500 "Failed to create event")
    end.

(** ** [PUT /:id]: update *)

(** [if (updates.dateTime) updates.dateTime = new Date(updates.dateTime)],
    then the cast to the schema's [Date]: an invalid date is refused, and so
    is the empty string, which casts to [null] on a required path. *)
Definition castDate (d : DateStr) : option Z := parseDate d.

(** Update validators ([runValidators: true]): the validators of each path
    the update sets, on the value it sets. *)
Definition updateValid (env : Env) (b : UpdateBody) : bool :=
  from_option (fun s => valid_title (trim s)) true (u_title b)
  && from_option (fun s => valid_description (trim s)) true (u_description b)
  && from_option (fun s => valid_location (trim s)) true (u_location b)
  && from_option (fun d => from_option (valid_dateTime env) false (castDate d)) true (u_dateTime b)
  && from_option valid_category true (u_category b)
  && from_option valid_status true (u_status b)
  && from_option (fun s => valid_creatorName (trim s)) true (u_creatorName b)
  && from_option valid_attendeeCount true (u_attendeeCount b)
  && from_option valid_maxAttendees true (u_maxAttendees b).

(** The [$set] the update amounts to: every path the body gives is written,
    the others keep their value. *)
Definition applyUpdate (b : UpdateBody) (e : Event) : Event :=
  mkEvent (default (title e) (trim <$> u_title b))
          (default (creatorName e) (trim <$> u_creatorName b))
          (default (creator e) (u_creator b))
          (default (description e) (trim <$> u_description b))
          (default (location e) (trim <$> u_location b))
          (default (dateTime e) (u_dateTime b ≫= castDate))
          (default (attendeeCount e) (u_attendeeCount b))
          (default (attendees e) (u_attendees b))
          (default (maxAttendees e) (u_maxAttendees b))
          (default (status e) (u_status b))
          (default (category e) (u_category b)).

(** [Event.findByIdAndUpdate(id, updates, { new: true, runValidators: true })];
    [None] stands for the rejected promise.  No [save] hook runs here. *)
Definition findByIdAndUpdate (env : Env) (id : ObjectId) (updates : UpdateBody)
    (db : Db) : option Db :=
  if updateValid env updates
  then Some (set_events (alter (applyUpdate updates) id (events db)) db)
  else None.

Definition updateEvent (env : Env) (actor : Actor) (id : ObjectId)
    (body : UpdateBody) (db : Db) : Db * Reply :=
  if negb (isEmpty (updateErrors env body)) then (db, ValidationError)
  else
    match events db !! id with
    | None => (db, NotFound)
    | Some event =>
        if negb (creator event =? actor_id actor) then (db, ForbiddenUpdate)
        else
          let updates := sanitizeUpdate body in
          match findByIdAndUpdate env id updates db with
          | None => (db, Fail 500 "Failed to update event")
          | Some db' => (db', Done 200 "Event updated successfully" (events db' !! id))
          end
    end.

(** ** [DELETE /:id] *)
Definition deleteEvent (actor : Actor) (id : ObjectId) (db : Db) : Db * Reply :=
  match events db !! id with
  | None => (db, NotFound)
  | Some event =>
      if negb (creator event =? actor_id actor) then (db, ForbiddenDelete)
      else
        let db1 := set_events (delete id (events db)) db in
        let db2 := pullCreated (actor_id actor) id db1 in
        let db3 := pullJoinedEverywhere id db2 in
        (db3, Removed "Event deleted successfully")
  end.

(** ** [POST /:id/join] and [POST /:id/leave] *)

(** [event.maxAttendees && event.attendees.length >= event.maxAttendees]:
    [null] and 0 are falsy. *)
Definition isFull (e : Event) : bool :=
  match maxAttendees e with
  | None => false
  | Some m => negb (m =? 0) && (m <=? Z.of_nat (length (attendees e)))
  end.

Definition joinEvent (env : Env) (actor : Actor) (id : ObjectId) (db : Db) : Db * Reply :=
  match events db !! id with
  | None => (db, NotFound)
  | Some event =>
      if includes (actor_id actor) (attendees event) then (db, AlreadyMember)
      else if isFull event then (db, CapacityExceeded)
      else
        let event' := set_attendees (attendees event ++ [actor_id actor]) event in
        match save env id event' db with
        | None => (db, Fail 500 "Failed to join event")
        | Some db1 =>
            let db2 := pushJoined (actor_id actor) id db1 in
            (db2, Done 200 "Successfully joined the event" (events db2 !! id))
        end
  end.

Definition leaveEvent (env : Env) (actor : Actor) (id : ObjectId) (db : Db) : Db * Reply :=
  match events db !! id with
  | None => (db, NotFound)
  | Some event =>
      if negb (includes (actor_id actor) (attendees event)) then (db, NotMember)
      else
        let event' :=
          set_attendees
            (List.filter (fun attendee => negb (attendee =? actor_id actor)) (attendees event))
            event in
        match save env id event' db with
        | None => (db, Fail 500 "Failed to leave event")
        | Some db1 =>
            let db2 := pullJoined (actor_id actor) id db1 in
            (db2, Done 200 "Successfully left the event" (events db2 !! id))
        end
  end.

(** ** Concurrent join requests

    A handler runs up to its next [await] without interruption; between two
    awaits other requests may run.  A join request touches the database four
    times: it loads the event, [save] writes it, the user is updated, and
    the event is loaded again for the reply.  Each of these is one step. *)

Inductive JoinState :=
| JStart                          (* before [Event.findById] *)
| JSaving (loaded : Event)        (* checks passed, caller pushed; [save] has yet to write *)
| JPushing                        (* before [User.findByIdAndUpdate] *)
| JReading                        (* before the last [Event.findById] *)
| JReplied (r : Reply).

Record JoinReq := mkJoinReq {
  j_actor : Actor;
  j_id : ObjectId;
  j_state : JoinState
}.

(** What [save] sends for a document whose array was pushed to: a [$push]
    of the new element and a [$set] of the recomputed count, applied to the
    stored document whatever it holds by then.  [None]: the document is
    gone. *)
Definition writePush (id uid : ObjectId) (count : Z) (db : Db) : option Db :=
  match events db !! id with
  | None => None
  | Some stored =>
      Some (set_events
              (<[id := set_attendeeCount count
                          (set_attendees (attendees stored ++ [uid]) stored)]> (events db))
              db)
  end.

Definition joinStep (env : Env) (r : JoinReq) (db : Db) : Db * JoinReq :=
  let reply st := mkJoinReq (j_actor r) (j_id r) st in
  match j_state r with
  | JStart =>
      match events db !! j_id r with
      | None => (db, reply (JReplied NotFound))
      | Some event =>
          if includes (actor_id (j_actor r)) (attendees event)
          then (db, reply (JReplied AlreadyMember))
          else if isFull event then (db, reply (JReplied CapacityExceeded))
          else
            let event' := set_attendees (attendees event ++ [actor_id (j_actor r)]) event in
            if schemaValid env event'
            then (db, reply (JSaving (preSave event')))
            else (db, reply (JReplied (Fail 500 "Failed to join event")))
      end
  | JSaving loaded =>
      match writePush (j_id r) (actor_id (j_actor r)) (attendeeCount loaded) db with
      | None => (db, reply (JReplied (Fail 500 "Failed to join event")))
      | Some db1 => (db1, reply JPushing)
      end
  | JPushing => (pushJoined (actor_id (j_actor r)) (j_id r) db, reply JReading)
  | JReading =>
      (db, reply (JReplied (Done 200 "Successfully joined the event" (events db !! j_id r))))
  | JReplied _ => (db, r)
  end.

(** The server: the database and the requests in flight.  A schedule names,
    step after step, the request that runs next. *)
Definition stepAt (env : Env) (i : nat) (sys : Db * list JoinReq) : Db * list JoinReq :=
  match sys.2 !! i with
  | None => sys
  | Some r =>
      let '(db', r') := joinStep env r sys.1 in
      (db', <[i := r']> sys.2)
  end.

Definition runSchedule (env : Env) (schedule : list nat) (sys : Db * list JoinReq)
    : Db * list JoinReq :=
  fold_left (fun s i => stepAt env i s) schedule sys.

(** ** Invariants of the stores *)

(** Attendance is recorded on both sides. *)
Definition membershipConsistent (db : Db) : Prop :=
  forall (e u : ObjectId) (E : Event) (U : User),
    events db !! e = Some E -> users db !! u = Some U ->
    (u ∈ attendees E <-> e ∈ joinedEvents U).

(** The stored count is the length of the list. *)
Definition countConsistent (E : Event) : Prop :=
  attendeeCount E = Z.of_nat (length (attendees E)).

(** Boolean forms of the invariants, for checking a given database. *)
Definition membershipConsistentb (db : Db) : bool :=
  forallb (fun eE : Z * Event =>
    forallb (fun uU : Z * User =>
      Bool.eqb (includes uU.1 (attendees eE.2)) (includes eE.1 (joinedEvents uU.2)))
      (map_to_list (users db)))
    (map_to_list (events db)).

(** The Sunday on or before the local day of [now], at local midnight. *)
Definition localWeekStart (env : Env) : Z :=
  let d := Date.Day (now env + localTZA env) in
  (d - Date.WeekDayOfDay d) * Date.msPerDay - localTZA env.

(** ** Sample data

    Three users and one event, at noon (UTC) on 2024-03-14. *)

Fixpoint isPrefix (p s : string) : bool :=
  match p, s with
  | EmptyString, _ => true
  | String a p', String b s' => Ascii.eqb a b && isPrefix p' s'
  | String _ _, EmptyString => false
  end.

Fixpoint contains (p s : string) : bool :=
  isPrefix p s ||
  match s with
  | EmptyString => false
  | String _ s' => contains p s'
  end.

Definition lowerCase (c : ascii) : ascii :=
  let n := nat_of_ascii c in
  if (Nat.leb 65 n && Nat.leb n 90)%bool then ascii_of_nat (n + 32) else c.

Fixpoint lower (s : string) : string :=
  match s with
  | EmptyString => EmptyString
  | String c rest => String (lowerCase c) (lower rest)
  end.

(** [p] occurs in [s], whatever the case of the letters. *)
Definition containsNoCase (p s : string) : bool := contains (lower p) (lower s).

(** A pattern of ASCII letters, digits and spaces: it compiles, and matches
    where it occurs. *)
Fixpoint plainPattern (s : string) : bool :=
  match s with
  | EmptyString => true
  | String c rest =>
      let n := nat_of_ascii c in
      ((Nat.eqb n 32 || (Nat.leb 48 n && Nat.leb n 57)
        || (Nat.leb 65 n && Nat.leb n 90) || (Nat.leb 97 n && Nat.leb n 122))
       && plainPattern rest)%bool
  end.

Definition noon : Z := 1710417600000.
Definition oneDay : Z := 86400000.

(** A server on UTC whose database reads a [NaN] count as 0, accepts the
    patterns made of letters, digits and spaces, and finds them as
    substrings. *)
Definition utcEnv : Env := Build_Env noon 0 containsNoCase plainPattern (Some 0).

Definition alice : Actor := mkActor 10 "Alice".
Definition bob : Actor := mkActor 11 "Bob".
Definition carol : Actor := mkActor 12 "Carol".

Definition someUsers : gmap Z User :=
  <[10 := mkUser "Alice" [] [1]]>
    (<[11 := mkUser "Bob" [] []]>
       (<[12 := mkUser "Carol" [] []]> ∅)).

Definition meetup : Event :=
  mkEvent "Proof meetup" "Alice" 10 "An evening of proofs" "Room 101"
          (noon + oneDay) 0 [] None "upcoming" "meetup".

Definition meetupDb : Db := mkDb (<[1 := meetup]> ∅) someUsers.

(** [{ attendeeCount: 5 }] *)
Definition countOnly : UpdateBody :=
  mkUpdateBody None None None None None None None None None (Some 5) None.

(** [{ attendees: [11, 12] }] *)
Definition attendeesOnly : UpdateBody :=
  mkUpdateBody None None None None None None None None (Some [11; 12]) None None.

(** [{ status: 'cancelled', creator: 12, creatorName: 'Carol', maxAttendees: 1 }] *)
Definition takeOver : UpdateBody :=
  mkUpdateBody None None None None None (Some "cancelled"%string) (Some 12)
               (Some "Carol"%string) None None (Some (Some 1)).

(** [{ title: 'ab' }] *)
Definition shortTitle : UpdateBody :=
  mkUpdateBody (Some "ab"%string) None None None None None None None None None None.

(** [{ title: 'Proof evening' }] *)
Definition newTitle : UpdateBody :=
  mkUpdateBody (Some "Proof evening"%string) None None None None None None None None None None.

(** [{ title, description, location, dateTime }] for the day after. *)
Definition launchParty : CreateBody :=
  mkCreateBody (Some "Launch party"%string) (Some "Drinks after the release"%string)
               (Some "Main hall"%string) (Some (DateIso (noon + oneDay))) None.

(** Twenty-five events, the [i]-th one [i] days from now. *)
Definition eventAt (i : Z) : Event :=
  mkEvent "Daily standup" "Alice" 10 "A short daily meeting" "Room 101"
          (noon + i * oneDay) 0 [] None "upcoming" "other".

Definition manyDb : Db :=
  mkDb (list_to_map ((fun i => (i, eventAt i)) <$> seqZ 1 25)) someUsers.

Definition noQuery : ListQuery := mkListQuery None None None None None None.

(** [?page=2&limit=10] *)
Definition secondPage : ListQuery :=
  mkListQuery None None None None (Some "2"%string) (Some "10"%string).


(** [?limit=abc] and [?page=abc] *)
Definition limitAbc : ListQuery :=
  mkListQuery None None None None None (Some "abc"%string).
Definition pageAbc : ListQuery :=
  mkListQuery None None None None (Some "abc"%string) None.

(** [?dateFilter=current_week] *)
Definition thisWeek : ListQuery :=
  mkListQuery None (Some "current_week"%string) None None None None.

(** The same clock on a server six hours east of UTC. *)
Definition eastEnv : Env := Build_Env noon (6 * 3600000) containsNoCase plainPattern (Some 0).

(** [utcTime y m d h]: the instant [y]-[m]-[d]T[h]:00Z, months from 1. *)
Definition utcTime (y m d h : Z) : Z :=
  Date.MakeDate (Date.MakeDay y (m - 1) d) (h * 3600000).

(** An event at 2024-03-09T20:00Z, a Saturday evening in UTC. *)
Definition saturdayEvening : Event :=
  mkEvent "Night walk" "Alice" 10 "A walk through the old town" "Main square"
          (utcTime 2024 3 9 20) 0 [] None "upcoming" "social".

(** An event with one seat left: capacity 2, Alice attending. *)
Definition lastSeat : Event :=
  mkEvent "Proof meetup" "Alice" 10 "An evening of proofs" "Room 101"
          (noon + oneDay) 1 [10] (Some 2) "upcoming" "meetup".

Definition lastSeatDb : Db :=
  mkDb (<[1 := lastSeat]> ∅)
       (<[10 := mkUser "Alice" [1] [1]]>
          (<[11 := mkUser "Bob" [] []]>
             (<[12 := mkUser "Carol" [] []]> ∅))).

(** Bob and Carol ask to join event 1 at the same time. *)
Definition twoJoins : list JoinReq :=
  [mkJoinReq bob 1 JStart; mkJoinReq carol 1 JStart].

(** Each request runs up to its next [await], in turn. *)
Definition inTurn : list nat := [0; 1; 0; 1; 0; 1; 0; 1]%nat.

(** The first request runs to its end before the second starts. *)
Definition oneAfterTheOther : list nat := [0; 0; 0; 0; 1; 1; 1; 1]%nat.

(** ** [GET /:id] and [GET /user/created] *)

(** The reply of [GET /:id]: the event, or the failure. *)
Inductive Lookup :=
| Found (event : Event)
| Missing (status : Z) (message : string).

Definition getEvent (id : ObjectId) (db : Db) : Lookup :=
  match events db !! id with
  | None => Missing 404 "Event not found"
  | Some event => Found event
  end.

(** A stored document with its [_id]. *)
Definition laterFirstDoc (a b : ObjectId * Event) : Prop := laterFirst a.2 b.2.

#[global] Instance laterFirstDoc_dec : RelDecision laterFirstDoc.
Proof. intros a b. unfold laterFirstDoc. apply _. Defined.

(** [Event.find({ creator: req.user._id }).sort({ dateTime: -1 })] *)
Definition listCreatedEvents (actor : Actor) (db : Db) : list (ObjectId * Event) :=
  merge_sort laterFirstDoc
    (List.filter (fun d : ObjectId * Event => creator d.2 =? actor_id actor)
                 (map_to_list (events db))).

(** ** More invariants of the stores *)

(** Every joined event of a user is a stored event. *)
Definition joinedRefsExist (db : Db) : Prop :=
  forall (u e : ObjectId) (U : User),
    users db !! u = Some U -> e ∈ joinedEvents U -> is_Some (events db !! e).

(** An event whose count is right, whose attendees are listed once each and
    whose capacity, when it has one, is respected. *)
Definition eventOk (E : Event) : Prop :=
  countConsistent E
  /\ NoDup (attendees E)
  /\ (forall m, maxAttendees E = Some m -> m <> 0 ->
        Z.of_nat (length (attendees E)) <= m).

(** The same event, some days in the past. *)
Definition pastEnv : Env := Build_Env (noon + 2 * oneDay) 0 containsNoCase plainPattern (Some 0).

Definition joinedRefsExistb (db : Db) : bool :=
  forallb (fun uU : Z * User =>
    forallb (fun e => bool_decide (is_Some (events db !! e))) (joinedEvents uU.2))
    (map_to_list (users db)).

(** [{ category: 'party' }] *)
Definition partyCategory : UpdateBody :=
  mkUpdateBody None None None None (Some "party"%string) None None None None None None.

(** [?dateFilter=tomorrow] and [?dateFilter=last_week] *)
Definition nextDay : ListQuery :=
  mkListQuery None (Some "tomorrow"%string) None None None None.
Definition lastWeek : ListQuery :=
  mkListQuery None (Some "last_week"%string) None None None None.


(** [?page=3&limit=10] and [?page=4&limit=10] *)
Definition thirdPage : ListQuery :=
  mkListQuery None None None None (Some "3"%string) (Some "10"%string).
Definition fourthPage : ListQuery :=
  mkListQuery None None None None (Some "4"%string) (Some "10"%string).

(** A request that has written the caller into the event. *)
Definition hasJoined (st : JoinState) : bool :=
  match st with
  | JStart | JSaving _ => false
  | JPushing | JReading => true
  | JReplied r => succeeded r
  end.

(** Every request that has joined finds its caller among the attendees. *)
Definition joinsKept (sys : Db * list JoinReq) : Prop :=
  Forall (fun r => hasJoined (j_state r) = true ->
            exists E, events sys.1 !! j_id r = Some E /\ actor_id (j_actor r) ∈ attendees E)
         sys.2.


(** Day number of 1 March of year [y] *)
Definition marchFirst (y : Z) : Z := 365 * y + y / 4 - y / 100 + y / 400 - 719468.

(** [t] is a local midnight that opens a month *)
Definition firstOfMonth (tza t : Z) : Prop :=
  getDate tza t = 1 /\ Date.TimeWithinDay (LocalTime tza t) = 0.

(** ** The client: the session reducer ([AuthContext]) *)
Module Auth.
Section Reducer.
Context {UserInfo : Type}.

Record State := mkState {
  user : option UserInfo;
  token : option string;
  isAuthenticated : bool;
  loading : bool;
  error : option string
}.

(** The actions, by their [type]; [OTHER] is any type the reducer does not
    know.  A payload that is missing is [None]. *)
Inductive Action :=
| AUTH_START
| AUTH_SUCCESS (user : option UserInfo) (token : option string)
| AUTH_FAIL (payload : option string)
| LOGOUT
| CLEAR_ERROR
| SET_LOADING (payload : bool)
| OTHER (type : string).

(** [initialState], the token being what [localStorage] holds. *)
Definition initialState (stored : option string) : State :=
  mkState None stored false true None.

Definition authReducer (state : State) (action : Action) : State :=
  match action with
  | AUTH_START =>
      mkState (user state) (token state) (isAuthenticated state) true None
  | AUTH_SUCCESS u t =>
      mkState u t true false None
  | AUTH_FAIL payload =>
      mkState None None false false payload
  | LOGOUT =>
      mkState None None false false None
  | CLEAR_ERROR =>
      mkState (user state) (token state) (isAuthenticated state) (loading state) None
  | SET_LOADING payload =>
      mkState (user state) (token state) (isAuthenticated state) payload (error state)
  | OTHER _ => state
  end.

End Reducer.
Arguments State : clear implicits.
Arguments Action : clear implicits.
End Auth.

(** ** The client: the creation form ([AddEventPage]) *)
Module Form.

(** The value of the [datetime-local] input: empty, or a date and a time of
    day without a zone, which [new Date] reads in local time. *)
Inductive LocalInput :=
| NoDate
| LocalStamp (year month day hour minute : Z).

Record FormData := mkFormData {
  title : string;
  description : string;
  location : string;
  dateTime : LocalInput;
  category : string
}.

(** The instant a local stamp denotes where local time is [tza] ahead of UTC. *)
Definition instantOf (tza : Z) (year month day hour minute : Z) : Z :=
  UTC tza (Date.MakeDate (Date.MakeDay year (month - 1) day)
                         (hour * 3600000 + minute * 60000)).

(** The values the [datetime-local] input can hold: no date, or a day of
    the calendar in the years 0000 to 9999 with a time of day. *)
Definition daysInMonth (year month : Z) : Z :=
  Date.MakeDay year month 1 - Date.MakeDay year (month - 1) 1.

Definition wellFormed (input : LocalInput) : bool :=
  match input with
  | NoDate => true
  | LocalStamp y mo d h mi =>
      (0 <=? y) && (y <=? 9999) && (1 <=? mo) && (mo <=? 12)
      && (1 <=? d) && (d <=? daysInMonth y mo)
      && (0 <=? h) && (h <=? 23) && (0 <=? mi) && (mi <=? 59)
  end.

(** What [validateForm] returns: [true], or [false] after [setError]. *)
Inductive Checked :=
| Valid
| Invalid (error : string).

(** [tza] and [now] are the browser's time zone and clock. *)
Definition validateForm (tza now : Z) (formData : FormData) : Checked :=
  if negb (nonempty (trim (title formData))) then
    Invalid "Event title is required"
  else if strlen (trim (title formData)) <? 3 then
    Invalid "Event title must be at least 3 characters long"
  else if negb (nonempty (trim (description formData))) then
    Invalid "Event description is required"
  else if strlen (trim (description formData)) <? 10 then
    Invalid "Event description must be at least 10 characters long"
  else if negb (nonempty (trim (location formData))) then
    Invalid "Event location is required"
  else
    match dateTime formData with
    | NoDate => Invalid "Event date and time is required"
    | LocalStamp y mo d h mi =>
        if instantOf tza y mo d h mi <=? now then
          Invalid "Event date must be in the future"
        else Valid
    end.

(** The body [handleSubmit] posts, as the server reads it: the form's
    fields, the date being read in the server's local time. *)
Definition postedBody (serverTza : Z) (formData : FormData) : CreateBody :=
  mkCreateBody (Some (title formData)) (Some (description formData))
               (Some (location formData))
               (Some (match dateTime formData with
                      | NoDate => DateOther ""
                      | LocalStamp y mo d h mi => DateIso (instantOf serverTza y mo d h mi)
                      end))
               (Some (category formData)).

(** A form the server accepts, and one with a location of two letters. *)
Definition launchForm : FormData :=
  mkFormData "Launch party" "Drinks after the release" "Main hall"
             (LocalStamp 2024 3 15 12 0) "other".

Definition shortLocation : FormData :=
  mkFormData "Launch party" "Drinks after the release" "B2"
             (LocalStamp 2024 3 15 12 0) "other".

End Form.

(** ** The client: which events the user has joined ([EventsPage]) *)
Module Page.

(** JSON values as the page reads them: [undefined], a string, or an object
    with string fields. *)
Inductive Json :=
| JUndefined
| JString (s : string)
| JObject (fields : list (string * string)).

Fixpoint field (key : string) (fields : list (string * string)) : Json :=
  match fields with
  | [] => JUndefined
  | (k, v) :: rest => if String.eqb k key then JString v else field key rest
  end.

(** [v[key]]: a string has no such property of its own. *)
Definition prop (key : string) (v : Json) : Json :=
  match v with
  | JObject fields => field key fields
  | _ => JUndefined
  end.

(** [a === b]; two objects are never the same object here. *)
Definition strictEq (a b : Json) : bool :=
  match a, b with
  | JUndefined, JUndefined => true
  | JString s, JString s' => String.eqb s s'
  | _, _ => false
  end.

Record ClientEvent := mkClientEvent {
  ev_id : string;
  ev_attendees : list Json
}.

(** An event of the [GET /] reply: only [creator] is populated there, so an
    attendee is the string of its id.  [show] prints an id. *)
Definition listedEvent (show : ObjectId -> string) (doc : ObjectId * Event) : ClientEvent :=
  mkClientEvent (show doc.1) ((fun a => JString (show a)) <$> attendees doc.2).

(** An event of the [GET /:id], join and leave replies: the attendees are
    populated, each an object with its [_id] and the selected fields of the
    user, [profile]; an attendee whose user is not found is left out. *)
Definition populatedEvent (show : ObjectId -> string)
    (profile : ObjectId -> option (list (string * string)))
    (doc : ObjectId * Event) : ClientEvent :=
  mkClientEvent (show doc.1)
    (omap (fun a => (fun fields => JObject (("_id"%string, show a) :: fields)) <$> profile a)
          (attendees doc.2)).

(** The set [fetchEvents] builds, as the list of its ids; [userId] is
    [user?.id]. *)
Definition userJoinedEvents (userId : Json) (events : list ClientEvent) : list string :=
  ev_id <$> List.filter
    (fun event => existsb (fun attendee => strictEq (prop "_id" attendee) userId)
                          (ev_attendees event))
    events.

End Page.

(** ** The client: editing an event ([MyEventsPage]) *)
Module MyEvents.

(** [new Date(dateTime).toISOString().slice(0, 16)]: the date and the time
    of day of [t] in UTC, to the minute, for a year that is printed with
    four digits. *)
Definition isoMinute (t : Z) : Form.LocalInput :=
  let day := Date.Day t in
  Form.LocalStamp (Date.YearFromDay day) (Date.MonthFromDay day + 1) (Date.DateFromDay day)
                  ((t / 3600000) mod 24) ((t / 60000) mod 60).

Definition fourDigitYear (t : Z) : bool :=
  (0 <=? Date.YearFromDay (Date.Day t)) && (Date.YearFromDay (Date.Day t) <=? 9999).

(** [handleEdit]: the edit form, filled from the event. *)
Definition handleEdit (event : Event) : Form.FormData :=
  Form.mkFormData (title event) (description event) (location event)
                  (isoMinute (dateTime event)) (category event).

(** The body [handleUpdateEvent] puts, as the server reads it: the five
    fields of the edit form, the date being read in the server's local
    time. *)
Definition putBody (serverTza : Z) (editFormData : Form.FormData) : UpdateBody :=
  mkUpdateBody (Some (Form.title editFormData)) (Some (Form.description editFormData))
               (Some (Form.location editFormData))
               (Some (match Form.dateTime editFormData with
                      | Form.NoDate => DateOther ""
                      | Form.LocalStamp y mo d h mi =>
                          DateIso (Form.instantOf serverTza y mo d h mi)
                      end))
               (Some (Form.category editFormData))
               None None None None None None.

End MyEvents.

(** * Properties *)

(** ** Helper lemmas *)

Lemma includes_true (x : Z) (l : list Z) : includes x l = true <-> x ∈ l.
Proof.
  unfold includes. rewrite existsb_exists. split.
  - intros (y & Hy & Heq). apply Z.eqb_eq in Heq. subst. by apply list_elem_of_In.
  - intros H. exists x. split; [by apply list_elem_of_In | apply Z.eqb_refl].
Qed.

Lemma includes_false (x : Z) (l : list Z) : includes x l = false <-> x ∉ l.
Proof.
  rewrite <- includes_true. destruct (includes x l); split; congruence.
Qed.

Lemma elem_of_pull (x y : Z) (l : list Z) : y ∈ pull x l <-> y ∈ l /\ y <> x.
Proof.
  unfold pull. rewrite !list_elem_of_In, filter_In, negb_true_iff, Z.eqb_neq. tauto.
Qed.

Lemma elem_of_without (x y : Z) (l : list Z) :
  y ∈ List.filter (fun a => negb (a =? x)) l <-> y ∈ l /\ y <> x.
Proof. apply elem_of_pull. Qed.

Lemma schemaValid_set_attendees env l E :
  schemaValid env (set_attendees l E) = schemaValid env E.
Proof. reflexivity. Qed.

(** What a successful join leaves in the database. *)
Lemma joinEvent_success env actor id db E :
  events db !! id = Some E ->
  includes (actor_id actor) (attendees E) = false ->
  isFull E = false ->
  schemaValid env E = true ->
  let E' := preSave (set_attendees (attendees E ++ [actor_id actor]) E) in
  joinEvent env actor id db =
    (pushJoined (actor_id actor) id (set_events (<[id := E']> (events db)) db),
     Done 200 "Successfully joined the event" (Some E')).
Proof.
  intros HE Hinc Hfull Hvalid E'. unfold joinEvent, save.
  rewrite HE, Hinc, Hfull, schemaValid_set_attendees, Hvalid.
  cbn. by rewrite lookup_insert_eq.
Qed.

(** A join either leaves the database as it was or is the successful one. *)
Lemma joinEvent_cases env actor id db db' r :
  joinEvent env actor id db = (db', r) ->
  (db' = db /\ succeeded r = false) \/
  (exists E, events db !! id = Some E
     /\ includes (actor_id actor) (attendees E) = false
     /\ isFull E = false /\ schemaValid env E = true
     /\ db' = pushJoined (actor_id actor) id
                (set_events (<[id := preSave (set_attendees (attendees E ++ [actor_id actor]) E)]>
                               (events db)) db)
     /\ succeeded r = true).
Proof.
  unfold joinEvent, save. intros H.
  destruct (events db !! id) as [E|] eqn:HE; [|left; by inversion H].
  destruct (includes _ _) eqn:Hinc; [left; by inversion H|].
  destruct (isFull E) eqn:Hfull; [left; by inversion H|].
  rewrite schemaValid_set_attendees in H.
  destruct (schemaValid env E) eqn:Hvalid; [|left; by inversion H].
  right. exists E. inversion H; subst. by repeat split.
Qed.

Lemma leaveEvent_cases env actor id db db' r :
  leaveEvent env actor id db = (db', r) ->
  (db' = db /\ succeeded r = false) \/
  (exists E, events db !! id = Some E
     /\ includes (actor_id actor) (attendees E) = true
     /\ schemaValid env E = true
     /\ db' = pullJoined (actor_id actor) id
                (set_events
                   (<[id := preSave (set_attendees
                                       (List.filter (fun a => negb (a =? actor_id actor))
                                                    (attendees E)) E)]>
                      (events db)) db)
     /\ succeeded r = true).
Proof.
  unfold leaveEvent, save. intros H.
  destruct (events db !! id) as [E|] eqn:HE; [|left; by inversion H].
  destruct (includes _ _) eqn:Hinc; cbn in H; [|left; by inversion H].
  rewrite schemaValid_set_attendees in H.
  destruct (schemaValid env E) eqn:Hvalid; [|left; by inversion H].
  right. exists E. inversion H; subst. by repeat split.
Qed.

Lemma join_keeps_membership (uid id : Z) db E :
  membershipConsistent db ->
  events db !! id = Some E ->
  membershipConsistent
    (pushJoined uid id
       (set_events (<[id := preSave (set_attendees (attendees E ++ [uid]) E)]> (events db)) db)).
Proof.
  intros Hinv HE e u E' U'. cbn.
  rewrite lookup_insert, lookup_alter.
  destruct (decide (id = e)) as [->|Hne], (decide (uid = u)) as [->|Hnu]; cbn.
  - intros [= <-]. destruct (users db !! u) as [U|] eqn:HU; [|done].
    cbn. intros [= <-]. cbn. rewrite !elem_of_app, !list_elem_of_singleton. tauto.
  - intros [= <-] HU. cbn. rewrite elem_of_app, list_elem_of_singleton.
    specialize (Hinv e u E U' HE HU). split; [|tauto].
    intros [?|?]; [tauto|congruence].
  - intros HE'. destruct (users db !! u) as [U|] eqn:HU; [|done].
    cbn. intros [= <-]. cbn. rewrite elem_of_app, list_elem_of_singleton.
    specialize (Hinv e u E' U HE' HU). split; [tauto|].
    intros [?|?]; [tauto|congruence].
  - intros HE' HU. by apply Hinv.
Qed.

Lemma leave_keeps_membership (uid id : Z) db E :
  membershipConsistent db ->
  events db !! id = Some E ->
  membershipConsistent
    (pullJoined uid id
       (set_events
          (<[id := preSave (set_attendees
                              (List.filter (fun a => negb (a =? uid)) (attendees E)) E)]>
             (events db)) db)).
Proof.
  intros Hinv HE e u E' U'. cbn.
  rewrite lookup_insert, lookup_alter.
  destruct (decide (id = e)) as [->|Hne], (decide (uid = u)) as [->|Hnu]; cbn.
  - intros [= <-]. destruct (users db !! u) as [U|] eqn:HU; [|done].
    cbn. intros [= <-]. cbn. rewrite elem_of_without, elem_of_pull. tauto.
  - intros [= <-] HU. cbn. rewrite elem_of_without.
    specialize (Hinv e u E U' HE HU). split; [tauto|].
    intros ?. split; [tauto|congruence].
  - intros HE'. destruct (users db !! u) as [U|] eqn:HU; [|done].
    cbn. intros [= <-]. cbn. rewrite elem_of_pull.
    specialize (Hinv e u E' U HE' HU). split; [|tauto].
    intros ?. split; [tauto|congruence].
  - intros HE' HU. by apply Hinv.
Qed.

Lemma membershipConsistentb_sound db :
  membershipConsistentb db = true -> membershipConsistent db.
Proof.
  unfold membershipConsistentb, membershipConsistent.
  rewrite forallb_forall. intros H e u E U HE HU.
  apply elem_of_map_to_list, list_elem_of_In in HE.
  apply elem_of_map_to_list, list_elem_of_In in HU.
  specialize (H _ HE). rewrite forallb_forall in H. specialize (H _ HU).
  cbn in H. apply eqb_prop in H.
  rewrite <- !includes_true, H. tauto.
Qed.

(** ** C1: attendance is recorded on both sides *)

(** C1.  A successful join or leave keeps the biconditional "[u] is among
    the attendees of [e] iff [e] is among the joined events of [u]" for every
    event and user; after the join the caller is on both sides, after the
    leave on neither. *)
Theorem membership_biconditional_preserved env actor id db db' r :
  membershipConsistent db ->
  joinEvent env actor id db = (db', r) \/ leaveEvent env actor id db = (db', r) ->
  succeeded r = true ->
  membershipConsistent db'
  /\ (joinEvent env actor id db = (db', r) ->
      exists E', events db' !! id = Some E' /\ actor_id actor ∈ attendees E'
        /\ forall U', users db' !! actor_id actor = Some U' -> id ∈ joinedEvents U')
  /\ (leaveEvent env actor id db = (db', r) ->
      exists E', events db' !! id = Some E' /\ (actor_id actor ∉ attendees E')
        /\ forall U', users db' !! actor_id actor = Some U' -> (id ∉ joinedEvents U')).
Proof.
  intros Hinv Hop Hok. split; [|split].
  - destruct Hop as [Hj|Hl].
    + apply joinEvent_cases in Hj as [[_ Hf]|(E & HE & _ & _ & _ & -> & _)]; [congruence|].
      by apply join_keeps_membership.
    + apply leaveEvent_cases in Hl as [[_ Hf]|(E & HE & _ & _ & -> & _)]; [congruence|].
      by apply leave_keeps_membership.
  - intros Hj.
    apply joinEvent_cases in Hj as [[_ Hf]|(E & HE & _ & _ & _ & -> & _)]; [congruence|].
    eexists. cbn. rewrite lookup_insert_eq. split; [done|]. split.
    + cbn. rewrite elem_of_app, list_elem_of_singleton. tauto.
    + intros U'. rewrite lookup_alter_eq.
      destruct (users db !! actor_id actor); [|done].
      cbn. intros [= <-]. cbn. rewrite elem_of_app, list_elem_of_singleton. tauto.
  - intros Hl.
    apply leaveEvent_cases in Hl as [[_ Hf]|(E & HE & _ & _ & -> & _)]; [congruence|].
    eexists. cbn. rewrite lookup_insert_eq. split; [done|]. split.
    + cbn. rewrite elem_of_without. tauto.
    + intros U'. rewrite lookup_alter_eq.
      destruct (users db !! actor_id actor); [|done].
      cbn. intros [= <-]. cbn. rewrite elem_of_pull. tauto.
Qed.

Lemma membership_biconditional_preserved_witness :
  membershipConsistent (joinEvent utcEnv bob 1 meetupDb).1.
Proof.
  refine (proj1 (membership_biconditional_preserved utcEnv bob 1 meetupDb
                   (joinEvent utcEnv bob 1 meetupDb).1
                   (joinEvent utcEnv bob 1 meetupDb).2 _ _ _)).
  - apply membershipConsistentb_sound. vm_compute. reflexivity.
  - left. vm_compute. reflexivity.
  - vm_compute. reflexivity.
Defined.

(** ** C2: the stored count *)

(** A successful join or leave stores the event with its count recomputed
    by the [pre('save')] hook. *)
Lemma join_leave_recount env actor id db db' r :
  joinEvent env actor id db = (db', r) \/ leaveEvent env actor id db = (db', r) ->
  succeeded r = true ->
  exists E', events db' !! id = Some E' /\ countConsistent E'.
Proof.
  intros [Hj|Hl] Hok.
  - apply joinEvent_cases in Hj as [[_ Hf]|(E & HE & _ & _ & _ & -> & _)]; [congruence|].
    eexists. cbn. by rewrite lookup_insert_eq.
  - apply leaveEvent_cases in Hl as [[_ Hf]|(E & HE & _ & _ & -> & _)]; [congruence|].
    eexists. cbn. by rewrite lookup_insert_eq.
Qed.

(** C2.  The update route hands the whole request body to
    [findByIdAndUpdate], which runs no [save] hook: the creator's body
    [{ attendeeCount: 5 }] stores the count 5 beside an empty attendee list,
    and [{ attendees: [11, 12] }] stores two attendees beside the count 0. *)
Theorem update_breaks_attendeeCount :
  (exists E', updateEvent utcEnv alice 1 countOnly meetupDb
              = (mkDb (<[1 := E']> ∅) someUsers, Done 200 "Event updated successfully" (Some E'))
     /\ attendees E' = [] /\ attendeeCount E' = 5)
  /\ (exists E', updateEvent utcEnv alice 1 attendeesOnly meetupDb
              = (mkDb (<[1 := E']> ∅) someUsers, Done 200 "Event updated successfully" (Some E'))
     /\ attendees E' = [11; 12] /\ attendeeCount E' = 0).
Proof.
  split; eexists; (split; [vm_compute; reflexivity | split; reflexivity]).
Qed.

(** ** C3: the outcomes of a join *)




(** ** C5: an update by someone else *)

(** C5, as the claim has it, fails: Bob, who did not create the meetup,
    sends [{ title: 'ab' }] and is answered with the validation failure, not
    with Forbidden. *)
Lemma update_non_creator_validation_first :
  creator meetup <> actor_id bob
  /\ updateEvent utcEnv bob 1 shortTitle meetupDb = (meetupDb, ValidationError)
  /\ ValidationError <> ForbiddenUpdate.
Proof. split; [|split]; [discriminate | reflexivity | discriminate]. Qed.

(** C5, amended.  The request is validated before the creator is checked:
    an update of an existing event by an actor other than its creator leaves
    the database as it was, and fails with Forbidden when the body passes
    the route's validation chains and with the validation failure (400) when
    it does not. *)
Theorem update_by_non_creator env actor id body db E :
  events db !! id = Some E ->
  creator E <> actor_id actor ->
  updateEvent env actor id body db
  = (db, if isEmpty (updateErrors env body) then ForbiddenUpdate else ValidationError).
Proof.
  intros HE Hne. unfold updateEvent.
  destruct (isEmpty (updateErrors env body)); cbn; [|reflexivity].
  rewrite HE. apply Z.eqb_neq in Hne. by rewrite Hne.
Qed.

Lemma update_by_non_creator_witness :
  updateEvent utcEnv bob 1 newTitle meetupDb = (meetupDb, ForbiddenUpdate).
Proof.
  exact (update_by_non_creator utcEnv bob 1 newTitle meetupDb meetup
           eq_refl ltac:(discriminate)).
Defined.

(** ** C6: what an update writes *)

(** A successful update stores the event with the body applied. *)
Lemma updateEvent_cases env actor id body db db' r :
  updateEvent env actor id body db = (db', r) ->
  (db' = db /\ succeeded r = false) \/
  (exists E, events db !! id = Some E /\ creator E = actor_id actor
     /\ updateErrors env body = []
     /\ updateValid env (sanitizeUpdate body) = true
     /\ db' = set_events (<[id := applyUpdate (sanitizeUpdate body) E]> (events db)) db
     /\ r = Done 200 "Event updated successfully" (Some (applyUpdate (sanitizeUpdate body) E))).
Proof.
  unfold updateEvent, findByIdAndUpdate. intros H.
  destruct (updateErrors env body) as [|msg errs] eqn:Herr; cbn in H; [|left; by inversion H].
  destruct (events db !! id) as [E|] eqn:HE; [|left; by inversion H].
  destruct (creator E =? actor_id actor) eqn:Hc; cbn in H; [|left; by inversion H].
  destruct (updateValid env (sanitizeUpdate body)) eqn:Hv; [|left; by inversion H].
  right. exists E. apply Z.eqb_eq in Hc.
  assert (Halter : alter (applyUpdate (sanitizeUpdate body)) id (events db)
                   = <[id := applyUpdate (sanitizeUpdate body) E]> (events db)).
  { apply map_eq. intros k. rewrite lookup_alter, lookup_insert.
    destruct (decide (id = k)) as [->|]; [by rewrite HE|done]. }
  rewrite Halter in H. cbn in H. rewrite lookup_insert_eq in H.
  inversion H; subst. by repeat split.
Qed.

(** The paths a body does not give keep their value: a body that gives only
    title, description, location, dateTime and category changes nothing
    else. *)
Lemma update_frame env actor id body db db' r :
  updateEvent env actor id body db = (db', r) ->
  succeeded r = true ->
  u_status body = None -> u_creator body = None -> u_creatorName body = None ->
  u_attendees body = None -> u_attendeeCount body = None -> u_maxAttendees body = None ->
  exists E E', events db !! id = Some E /\ events db' !! id = Some E'
    /\ creator E' = creator E /\ creatorName E' = creatorName E
    /\ attendees E' = attendees E /\ attendeeCount E' = attendeeCount E
    /\ maxAttendees E' = maxAttendees E /\ status E' = status E.
Proof.
  intros H Hok Hs Hc Hcn Ha Hac Hm.
  apply updateEvent_cases in H as [[_ Hf]|(E & HE & _ & _ & _ & -> & _)]; [congruence|].
  exists E. eexists. split; [done|]. cbn. rewrite lookup_insert_eq. split; [done|].
  cbn. rewrite Hs, Hc, Hcn, Ha, Hac, Hm. by repeat split.
Qed.

(** C6.  The update route hands the whole request body to
    [findByIdAndUpdate]: with the body
    [{ status: 'cancelled', creator: 12, creatorName: 'Carol', maxAttendees: 1 }]
    the creator's update succeeds and rewrites the status, the creator, the
    creator's name and the capacity; with [{ attendees: [11, 12] }] and
    [{ attendeeCount: 5 }] it rewrites the attendance. *)
Theorem update_writes_any_path :
  (exists E', (updateEvent utcEnv alice 1 takeOver meetupDb).2
              = Done 200 "Event updated successfully" (Some E')
     /\ status E' = "cancelled"%string /\ status meetup = "upcoming"%string
     /\ creator E' = 12 /\ creator meetup = 10
     /\ creatorName E' = "Carol"%string /\ creatorName meetup = "Alice"%string
     /\ maxAttendees E' = Some 1 /\ maxAttendees meetup = None)
  /\ (exists E', (updateEvent utcEnv alice 1 attendeesOnly meetupDb).2
              = Done 200 "Event updated successfully" (Some E')
     /\ attendees E' = [11; 12] /\ attendees meetup = [])
  /\ (exists E', (updateEvent utcEnv alice 1 countOnly meetupDb).2
              = Done 200 "Event updated successfully" (Some E')
     /\ attendeeCount E' = 5 /\ attendeeCount meetup = 0).
Proof.
  split; [|split]; eexists; (split; [vm_compute; reflexivity | by repeat split]).
Qed.

(** ** C10: a new event has no attendees *)

(** C10.  When a creation succeeds, the new event is stored under the fresh
    id with an empty attendee list and the count 0; every other event and
    every user's joined events are as before; the id is appended to the
    created events of the creator and of no one else. *)
Theorem create_starts_empty env actor newId body db db' r :
  createEvent env actor newId body db = (db', r) ->
  succeeded r = true ->
  exists E,
    events db !! newId = None
    /\ events db' !! newId = Some E
    /\ r = Done 201 "Event created successfully" (Some E)
    /\ attendees E = [] /\ attendeeCount E = 0
    /\ (forall e, e <> newId -> events db' !! e = events db !! e)
    /\ (forall u, joinedEvents <$> users db' !! u = joinedEvents <$> users db !! u)
    /\ (forall u, u <> actor_id actor -> users db' !! u = users db !! u)
    /\ (forall U, users db !! actor_id actor = Some U ->
          createdEvents <$> users db' !! actor_id actor = Some (createdEvents U ++ [newId])).
Proof.
  unfold createEvent, saveNew, save. intros H Hok.
  destruct (isEmpty (createErrors env body)); cbn in H;
    [|inversion H; subst; discriminate].
  destruct (c_dateTime body ≫= castString) as [t|]; [|inversion H; subst; discriminate].
  destruct (events db !! newId) eqn:Hfresh; [inversion H; subst; discriminate|].
  destruct (schemaValid env (newEvent actor body t)); [|inversion H; subst; discriminate].
  cbn in H. rewrite lookup_insert_eq in H. inversion H; subst; clear H.
  eexists. split; [done|]. cbn. rewrite lookup_insert_eq.
  split; [done|]. split; [done|]. split; [done|]. split; [done|].
  split; [|split; [|split]].
  - intros e Hne. by rewrite lookup_insert_ne.
  - intros u. rewrite lookup_alter.
    destruct (decide (actor_id actor = u)) as [->|]; [|done].
    by destruct (users db !! u).
  - intros u Hne. by rewrite lookup_alter_ne.
  - intros U HU. rewrite lookup_alter_eq, HU. done.
Qed.

Lemma create_starts_empty_witness :
  exists E, events (createEvent utcEnv alice 2 launchParty meetupDb).1 !! 2 = Some E
    /\ attendees E = [] /\ attendeeCount E = 0.
Proof.
  destruct (create_starts_empty utcEnv alice 2 launchParty meetupDb
              (createEvent utcEnv alice 2 launchParty meetupDb).1
              (createEvent utcEnv alice 2 launchParty meetupDb).2)
    as (E & _ & HE & _ & Ha & Hc & _).
  - apply surjective_pairing.
  - vm_compute. reflexivity.
  - exists E. by repeat split.
Defined.

(** ** C7: pages of the listing *)

#[local] Instance laterFirst_total : Total laterFirst.
Proof. intros a b. unfold laterFirst. lia. Qed.


Lemma ofZ_safe z : Z.abs z <= Js.maxSafe -> Js.ofZ z = Js.Fin z.
Proof.
  intros H. unfold Js.ofZ.
  by replace (Z.abs z <=? Js.maxSafe) with true by (symmetry; apply Z.leb_le; exact H).
Qed.

(** The reply of the listing route, once the query object is built and the
    database has accepted it. *)
Lemma listEvents_reply env q db query :
  buildQuery env q = Some query ->
  patternOk env query = true ->
  listEvents env q db =
    match cursor env (Js.times (limitOf q) (Js.VNum (Js.Fin 1)))
                 (Js.mul (Js.minus (pageOf q) (Js.VNum (Js.Fin 1))) (Js.ToNumber (limitOf q)))
                 (sortByDateDesc (findAll env query db)) with
    | None => Fail 500 "Failed to get events"
    | Some evs =>
        Listing evs
          (mkPagination (pageOf q)
             (Js.ceil_div (Js.Fin (Z.of_nat (length (findAll env query db))))
                          (Js.ToNumber (limitOf q)))
             (Z.of_nat (length (findAll env query db))))
    end.
Proof. intros Hq Hpat. unfold listEvents. by rewrite Hq, Hpat. Qed.

(** A search text that is no pattern the database accepts. *)
Lemma listEvents_bad_pattern env q db query :
  buildQuery env q = Some query ->
  patternOk env query = false ->
  listEvents env q db = Fail 500 "Failed to get events".
Proof. intros Hq Hpat. unfold listEvents. by rewrite Hq, Hpat. Qed.

(** The rows of a page, for a page and a limit that read as positive
    integers. *)
Lemma listEvents_rows env q db query p l :
  buildQuery env q = Some query ->
  patternOk env query = true ->
  Js.ToNumber (pageOf q) = Js.Fin p ->
  Js.ToNumber (limitOf q) = Js.Fin l ->
  0 < p -> 0 < l -> p * l <= Js.maxSafe ->
  listEvents env q db
  = Listing (take (Z.to_nat l)
               (drop (Z.to_nat ((p - 1) * l)) (sortByDateDesc (findAll env query db))))
            (mkPagination (pageOf q)
               (Js.Fin (- ((- Z.of_nat (length (findAll env query db))) / l)))
               (Z.of_nat (length (findAll env query db)))).
Proof.
  intros Hq Hpat Hp Hl Hp0 Hl0 Hbound.
  rewrite (listEvents_reply env q db query Hq Hpat).
  unfold Js.times, Js.minus. rewrite Hp, Hl. cbn [Js.ToNumber Js.mul Js.sub].
  rewrite (ofZ_safe (l * 1)) by nia.
  rewrite (ofZ_safe (p - 1)) by nia.
  cbn [Js.mul]. rewrite (ofZ_safe ((p - 1) * l)) by nia.
  unfold cursor, readCount, Js.ceil_div.
  replace ((p - 1) * l <? 0) with false by (symmetry; apply Z.ltb_ge; nia).
  replace (l * 1 =? 0) with false by (symmetry; apply Z.eqb_neq; lia).
  replace (l =? 0) with false by (symmetry; apply Z.eqb_neq; lia).
  replace (Z.abs (l * 1)) with l by lia.
  reflexivity.
Qed.


#[local] Instance laterFirst_trans : Transitive laterFirst.
Proof. intros a b c. unfold laterFirst. lia. Qed.

Lemma same_date_same_event (l : list Event) (x y : Event) :
  NoDup (dateTime <$> l) -> x ∈ l -> y ∈ l -> dateTime x = dateTime y -> x = y.
Proof.
  induction l as [|e l IH]; intros Hnd Hx Hy Heq; [by apply elem_of_nil in Hx|].
  cbn in Hnd. apply NoDup_cons in Hnd as [Hnin Hnd].
  apply elem_of_cons in Hx as [->|Hx], Hy as [->|Hy].
  - reflexivity.
  - exfalso. apply Hnin. rewrite Heq. by apply list_elem_of_fmap_2.
  - exfalso. apply Hnin. rewrite <- Heq. by apply list_elem_of_fmap_2.
  - by apply IH.
Qed.

(** When no two events of a list have the same date, the list has one order
    with the later events first. *)
Lemma sortByDateDesc_unique (l order : list Event) :
  NoDup (dateTime <$> l) -> order ≡ₚ l -> Sorted laterFirst order ->
  order = sortByDateDesc l.
Proof.
  intros Hnd Hperm Hsorted.
  apply (Sorted_unique_strong laterFirst); [|exact Hsorted|apply Sorted_merge_sort, _|].
  - intros x1 x2 Hx1 Hx2 H12 H21. unfold laterFirst in H12, H21.
    apply (same_date_same_event l); [exact Hnd| | |lia].
    + by rewrite <- Hperm.
    + unfold sortByDateDesc in Hx2. by rewrite merge_sort_Permutation in Hx2.
  - unfold sortByDateDesc. by rewrite merge_sort_Permutation.
Qed.




(** ** C8: the current week *)

Lemma year_of_era_bounds doe :
  0 <= doe < 146097 ->
  let yoe := (doe - doe / 1460 + doe / 36524 - doe / 146096) / 365 in
  let doy := doe - (365 * yoe + yoe / 4 - yoe / 100) in
  0 <= yoe <= 399 /\ 0 <= doy <= 365.
Proof.
  intros H. cbv zeta. Z.to_euclidean_division_equations. lia.
Qed.

(** The civil date of a day has its month in 1..12, and the day is found
    again from it, whatever day of that month is asked for. *)
Lemma civil_from_days_inverse z x :
  let '(y, m, d) := Date.civil_from_days z in
  1 <= m <= 12 /\ Date.days_from_civil y m x = z + (x - d).
Proof.
  unfold Date.civil_from_days.
  set (z' := z + 719468).
  set (era := z' / 146097).
  set (doe := z' - era * 146097).
  assert (Hdoe : 0 <= doe < 146097).
  { subst doe era. pose proof (Z.mod_pos_bound z' 146097 ltac:(lia)).
    pose proof (Z.div_mod z' 146097 ltac:(lia)). lia. }
  pose proof (year_of_era_bounds doe Hdoe) as Hb. cbv zeta in Hb.
  set (yoe := (doe - doe / 1460 + doe / 36524 - doe / 146096) / 365) in *.
  set (doy := doe - (365 * yoe + yoe / 4 - yoe / 100)) in *.
  set (mp := (5 * doy + 2) / 153).
  assert (Hmp : 0 <= mp <= 11).
  { subst mp. destruct Hb as [_ Hd]. Z.to_euclidean_division_equations. lia. }
  cbv zeta. unfold Date.days_from_civil.
  assert (Hz : z = era * 146097 + doe - 719468) by (subst doe z'; lia).
  assert (Hdoy : doe = 365 * yoe + yoe / 4 - yoe / 100 + doy) by (subst doy; lia).
  clearbody mp doy yoe doe era. clear z' Hdoe.
  destruct (mp <? 10) eqn:Hlt.
  - apply Z.ltb_lt in Hlt. split; [lia|].
    replace (mp + 3 <=? 2) with false by (symmetry; apply Z.leb_gt; lia).
    replace (2 <? mp + 3) with true by (symmetry; apply Z.ltb_lt; lia).
    replace ((yoe + era * 400) / 400) with era
      by (apply Z.div_unique with yoe; lia).
    replace (mp + 3 - 3) with mp by lia.
    cbv beta iota zeta. replace (yoe + era * 400 - era * 400) with yoe by lia. lia.
  - apply Z.ltb_ge in Hlt. split; [lia|].
    replace (mp - 9 <=? 2) with true by (symmetry; apply Z.leb_le; lia).
    replace (2 <? mp - 9) with false by (symmetry; apply Z.ltb_ge; lia).
    replace (yoe + era * 400 + 1 - 1) with (yoe + era * 400) by lia.
    replace ((yoe + era * 400) / 400) with era
      by (apply Z.div_unique with yoe; lia).
    replace (mp - 9 + 9) with mp by lia.
    cbv beta iota zeta. replace (yoe + era * 400 - era * 400) with yoe by lia. lia.
Qed.

(** [MakeDay] on the year and month of day [d] counts from [d]'s own date. *)
Lemma MakeDay_same_month d x :
  Date.MakeDay (Date.YearFromDay d) (Date.MonthFromDay d) x = d + (x - Date.DateFromDay d).
Proof.
  unfold Date.MakeDay, Date.YearFromDay, Date.MonthFromDay, Date.DateFromDay.
  pose proof (civil_from_days_inverse d 1) as H.
  destruct (Date.civil_from_days d) as [[y m] dd]. cbn. destruct H as [Hm H].
  replace ((m - 1) / 12) with 0 by (symmetry; apply Z.div_small; lia).
  replace ((m - 1) mod 12) with (m - 1) by (symmetry; apply Z.mod_small; lia).
  replace (y + 0) with y by lia. replace (m - 1 + 1) with m by lia.
  rewrite H. lia.
Qed.

Lemma Day_of_midnight tza d : Date.Day (LocalTime tza (d * Date.msPerDay - tza)) = d.
Proof.
  unfold LocalTime, Date.Day. replace (d * Date.msPerDay - tza + tza) with (d * Date.msPerDay) by lia.
  apply Z.div_mul. discriminate.
Qed.

(** [today] is local midnight of the local day of [now]. *)
Lemma todayOf_midnight env :
  todayOf env = Date.Day (now env + localTZA env) * Date.msPerDay - localTZA env.
Proof.
  unfold todayOf, newDate, getFullYear, getMonth, getDate, UTC, Date.MakeDate, LocalTime.
  rewrite MakeDay_same_month. lia.
Qed.

(** [setDate] on a local midnight moves by whole days. *)
Lemma setDate_midnight tza d x :
  setDate tza (d * Date.msPerDay - tza) (getDate tza (d * Date.msPerDay - tza) + x)
  = (d + x) * Date.msPerDay - tza.
Proof.
  unfold setDate, getDate. cbv zeta. rewrite !Day_of_midnight.
  rewrite MakeDay_same_month. unfold UTC, Date.MakeDate, Date.TimeWithinDay, LocalTime.
  replace (d * Date.msPerDay - tza + tza) with (d * Date.msPerDay) by lia.
  rewrite Z.mod_mul by discriminate. lia.
Qed.

Lemma getDay_midnight tza d :
  getDay tza (d * Date.msPerDay - tza) = Date.WeekDayOfDay d.
Proof. unfold getDay. by rewrite Day_of_midnight. Qed.

Lemma dateBucket_current_week env :
  dateBucket env "current_week"
  = Some (GteLt (localWeekStart env) (localWeekStart env + 7 * Date.msPerDay)).
Proof.
  unfold dateBucket.
  change (String.eqb "current_week" "today") with false.
  change (String.eqb "current_week" "current_week") with true.
  cbv beta iota zeta. rewrite todayOf_midnight.
  set (d := Date.Day (now env + localTZA env)).
  set (tza := localTZA env).
  replace (getDate tza (d * Date.msPerDay - tza) - getDay tza (d * Date.msPerDay - tza))
    with (getDate tza (d * Date.msPerDay - tza) + (- Date.WeekDayOfDay d))
    by (rewrite getDay_midnight; lia).
  rewrite setDate_midnight, setDate_midnight.
  unfold localWeekStart. subst d tza.
  generalize (Date.WeekDayOfDay (Date.Day (now env + localTZA env))).
  generalize (Date.Day (now env + localTZA env)). intros d w.
  unfold Date.msPerDay. apply f_equal. apply f_equal2; lia.
Qed.

(** C8, as the claim has it, fails: at noon UTC on 2024-03-14, on a server
    six hours east of UTC, the week runs from 2024-03-09T18:00Z to
    2024-03-16T18:00Z, so that an event at 2024-03-09T20:00Z is listed. *)
Lemma current_week_is_local :
  now eastEnv = utcTime 2024 3 14 12
  /\ dateBucket eastEnv "current_week"
     = Some (GteLt (utcTime 2024 3 9 18) (utcTime 2024 3 16 18))
  /\ dateBucket eastEnv "current_week"
     <> Some (GteLt (utcTime 2024 3 10 0) (utcTime 2024 3 17 0))
  /\ (exists query, buildQuery eastEnv thisWeek = Some query
        /\ matches eastEnv query saturdayEvening = true)
  /\ dateTime saturdayEvening = utcTime 2024 3 9 20
  /\ ~ (utcTime 2024 3 10 0 <= dateTime saturdayEvening).
Proof.
  split; [vm_compute; reflexivity|]. split; [vm_compute; reflexivity|].
  split; [vm_compute; discriminate|].
  split; [eexists; split; [vm_compute; reflexivity|vm_compute; reflexivity]|].
  split; [vm_compute; reflexivity|]. vm_compute. intros H. apply H. reflexivity.
Qed.

(** C8, amended.  On a server whose local time is a fixed offset from UTC:
    with [dateFilter=current_week] the events listed are those whose
    [dateTime] lies in the half-open seven-day window that starts at
    midnight, in the server's local time, of the Sunday on or before the
    current local day; the window holds the start of the current local day.
    On a server whose local time is UTC and at any instant of 2024-03-14,
    the window is from 2024-03-10T00:00Z to 2024-03-17T00:00Z. *)
Theorem current_week_window env :
  let tza := localTZA env in
  let start := localWeekStart env in
  let stop := start + 7 * Date.msPerDay in
  buildQuery env thisWeek = Some (mkFilter None (Some (GteLt start stop)))
  /\ (forall e, matches env (mkFilter None (Some (GteLt start stop))) e = true
                <-> start <= dateTime e < stop)
  /\ getDay tza start = 0
  /\ Date.TimeWithinDay (LocalTime tza start) = 0
  /\ start <= todayOf env < stop
  /\ todayOf env <= now env < todayOf env + Date.msPerDay
  /\ (tza = 0 -> utcTime 2024 3 14 0 <= now env < utcTime 2024 3 15 0 ->
      start = utcTime 2024 3 10 0 /\ stop = utcTime 2024 3 17 0).
Proof.
  intros tza start stop.
  assert (Hw : 0 <= Date.WeekDayOfDay (Date.Day (now env + tza)) < 7).
  { unfold Date.WeekDayOfDay. apply Z.mod_pos_bound. lia. }
  split; [|split; [|split; [|split; [|split; [|split]]]]].
  - transitivity (Some (mkFilter None (dateBucket env "current_week"))); [reflexivity|].
    by rewrite dateBucket_current_week.
  - intros e. unfold matches. cbn. rewrite andb_true_iff, Z.leb_le, Z.ltb_lt. tauto.
  - unfold start, localWeekStart. rewrite getDay_midnight.
    unfold Date.WeekDayOfDay.
    set (d := Date.Day (now env + localTZA env)).
    replace (d - (d + 4) mod 7 + 4) with ((d + 4) - (d + 4) mod 7) by lia.
    rewrite Zminus_mod, Zmod_mod, Z.sub_diag. reflexivity.
  - unfold start, localWeekStart, LocalTime, Date.TimeWithinDay. fold tza.
    set (k := Date.Day (now env + tza) - Date.WeekDayOfDay (Date.Day (now env + tza))).
    replace (k * Date.msPerDay - tza + tza) with (k * Date.msPerDay) by lia.
    apply Z.mod_mul. discriminate.
  - rewrite todayOf_midnight. unfold stop, start, localWeekStart. fold tza.
    unfold Date.msPerDay. lia.
  - rewrite todayOf_midnight. fold tza. unfold Date.Day, Date.msPerDay.
    pose proof (Z.div_mod (now env + tza) 86400000 ltac:(lia)).
    pose proof (Z.mod_pos_bound (now env + tza) 86400000 ltac:(lia)). lia.
  - intros Htz Hnow. unfold stop, start, localWeekStart. fold tza. rewrite Htz.
    assert (Hd : Date.Day (now env + 0) = 19796).
    { unfold Date.Day, Date.msPerDay. symmetry.
      apply Z.div_unique with (now env - 19796 * 86400000).
      - left. vm_compute utcTime in Hnow. lia.
      - lia. }
    rewrite Hd. vm_compute. split; reflexivity.
Qed.

(** ** C9: page and limit that are not numbers *)

(** What [Number] makes of a string, sample by sample. *)
Example StringToNumber_notations :
  Js.StringToNumber "10" = Js.Fin 10
  /\ Js.StringToNumber " 10 " = Js.Fin 10
  /\ Js.StringToNumber "+10" = Js.Fin 10
  /\ Js.StringToNumber "1e1" = Js.Fin 10
  /\ Js.StringToNumber "10.0" = Js.Fin 10
  /\ Js.StringToNumber "0x10" = Js.Fin 16
  /\ Js.StringToNumber "-5" = Js.Fin (-5)
  /\ Js.StringToNumber "" = Js.Fin 0
  /\ Js.StringToNumber "Infinity" = Js.PInf
  /\ Js.StringToNumber "2.5" = Js.Untracked
  /\ Js.StringToNumber "9007199254740993" = Js.Untracked
  /\ Js.StringToNumber "abc" = Js.NaN
  /\ Js.StringToNumber "12abc" = Js.NaN
  /\ Js.StringToNumber "1e" = Js.NaN
  /\ Js.StringToNumber "-0x10" = Js.NaN.
Proof. repeat split; vm_compute; reflexivity. Qed.

Lemma mul_NaN_r a : Js.mul a Js.NaN = Js.NaN.
Proof. by destruct a. Qed.

(** C9, as the claim has it, fails: [?limit=abc] is not answered like a
    request without a limit.  With 25 events, and a database that reads a
    [NaN] count as 0, all 25 rows come back and [pages] is [NaN], where the
    default limit gives 10 rows and 3 pages; whatever the database makes of
    a [NaN] count, the two replies differ.  Likewise [?page=abc] is echoed
    in [current]. *)
Lemma malformed_limit_not_defaulted :
  listEvents utcEnv limitAbc manyDb
  = Listing (eventAt <$> reverse (seqZ 1 25))
            (mkPagination (Js.VNum (Js.Fin 1)) Js.NaN 25)
  /\ listEvents utcEnv noQuery manyDb
     = Listing (eventAt <$> reverse (seqZ 16 10))
               (mkPagination (Js.VNum (Js.Fin 1)) (Js.Fin 3) 25)
  /\ ~ (exists c, listEvents (Build_Env noon 0 containsNoCase plainPattern c) limitAbc manyDb
                  = listEvents (Build_Env noon 0 containsNoCase plainPattern c) noQuery manyDb)
  /\ listEvents utcEnv pageAbc manyDb
     = Listing (eventAt <$> reverse (seqZ 16 10))
               (mkPagination (Js.VStr "abc") (Js.Fin 3) 25).
Proof.
  split; [vm_compute; reflexivity|]. split; [vm_compute; reflexivity|].
  split; [|vm_compute; reflexivity].
  intros [c H].
  destruct c as [[|z|z]|]; vm_compute in H; discriminate H.
Qed.

(** C9, amended.  A missing page or limit takes its default, 1 or 10.  A
    page or limit that JavaScript reads as [NaN], being no numeric literal
    in any of its notations, is not replaced by the default: the skip count
    is [NaN]; the request fails with status 500 when the database refuses
    such a count, and a reply that lists events carries the page as it was
    given in [current], and [NaN] in [pages] when it is the limit that is
    read as [NaN]. *)
Theorem listEvents_malformed_count env q db query :
  buildQuery env q = Some query ->
  Js.ToNumber (pageOf q) = Js.NaN \/ Js.ToNumber (limitOf q) = Js.NaN ->
  (q_page q = None -> pageOf q = Js.VNum (Js.Fin 1))
  /\ (q_limit q = None -> limitOf q = Js.VNum (Js.Fin 10))
  /\ Js.mul (Js.minus (pageOf q) (Js.VNum (Js.Fin 1))) (Js.ToNumber (limitOf q)) = Js.NaN
  /\ (nonIntegerCount env = None ->
      listEvents env q db = Fail 500 "Failed to get events")
  /\ (forall evs pg, listEvents env q db = Listing evs pg ->
        current pg = pageOf q
        /\ (forall s, q_page q = Some s -> current pg = Js.VStr s)
        /\ (Js.ToNumber (limitOf q) = Js.NaN -> pages pg = Js.NaN)).
Proof.
  intros Hq Hbad.
  assert (Hskip : Js.mul (Js.minus (pageOf q) (Js.VNum (Js.Fin 1))) (Js.ToNumber (limitOf q))
                  = Js.NaN).
  { destruct Hbad as [Hp|Hl].
    - unfold Js.minus. rewrite Hp. reflexivity.
    - rewrite Hl. apply mul_NaN_r. }
  split; [intros Hp; unfold pageOf; by rewrite Hp|].
  split; [intros Hl; unfold limitOf; by rewrite Hl|].
  split; [exact Hskip|]. split.
  - intros Hnone. destruct (patternOk env query) eqn:Hpat;
      [|exact (listEvents_bad_pattern env q db query Hq Hpat)].
    rewrite (listEvents_reply env q db query Hq Hpat), Hskip.
    unfold cursor, readCount. by rewrite Hnone.
  - intros evs pg H. destruct (patternOk env query) eqn:Hpat;
      [|rewrite (listEvents_bad_pattern env q db query Hq Hpat) in H; discriminate H].
    rewrite (listEvents_reply env q db query Hq Hpat) in H.
    destruct (cursor _ _ _ _); [|discriminate H].
    injection H as _ <-. cbn. split; [done|]. split.
    + intros s Hs. unfold pageOf. by rewrite Hs.
    + intros Hl. by rewrite Hl.
Qed.

Lemma listEvents_malformed_count_witness :
  exists evs pg, listEvents utcEnv limitAbc manyDb = Listing evs pg
    /\ current pg = Js.VNum (Js.Fin 1) /\ pages pg = Js.NaN.
Proof.
  destruct (listEvents_malformed_count utcEnv limitAbc manyDb (mkFilter None None))
    as (_ & _ & _ & _ & H); [reflexivity | right; reflexivity |].
  eexists _, _. split; [vm_compute; reflexivity|].
  destruct (H _ _ ltac:(vm_compute; reflexivity)) as (Hc & _ & Hp).
  split; [exact Hc | apply Hp; reflexivity].
Defined.

(** ** C4: two joins and one seat *)

(** Run without interruption, the four steps of a request are the handler. *)
Lemma first_request_alone env a1 id db (r2 : JoinReq) :
  runSchedule env [0; 0; 0; 0]%nat (db, [mkJoinReq a1 id JStart; r2])
  = ((joinEvent env a1 id db).1,
     [mkJoinReq a1 id (JReplied (joinEvent env a1 id db).2); r2]).
Proof.
  unfold runSchedule, joinEvent, save. cbn [fold_left].
  unfold stepAt at 4. cbn [fst snd lookup list_lookup]. unfold joinStep at 1.
  cbn [j_state j_id j_actor].
  destruct (events db !! id) as [E|] eqn:HE; [|reflexivity].
  destruct (includes (actor_id a1) (attendees E)); [reflexivity|].
  destruct (isFull E); [reflexivity|].
  destruct (schemaValid env (set_attendees (attendees E ++ [actor_id a1]) E)); [|reflexivity].
  unfold stepAt, joinStep, writePush. cbn. rewrite HE. cbn.
  rewrite !lookup_insert_eq. reflexivity.
Qed.

Lemma second_request_alone env a2 id db (r1 : JoinReq) :
  runSchedule env [1; 1; 1; 1]%nat (db, [r1; mkJoinReq a2 id JStart])
  = ((joinEvent env a2 id db).1,
     [r1; mkJoinReq a2 id (JReplied (joinEvent env a2 id db).2)]).
Proof.
  unfold runSchedule, joinEvent, save. cbn [fold_left].
  unfold stepAt at 4. cbn [fst snd lookup list_lookup]. unfold joinStep at 1.
  cbn [j_state j_id j_actor].
  destruct (events db !! id) as [E|] eqn:HE; [|reflexivity].
  destruct (includes (actor_id a2) (attendees E)); [reflexivity|].
  destruct (isFull E); [reflexivity|].
  destruct (schemaValid env (set_attendees (attendees E ++ [actor_id a2]) E)); [|reflexivity].
  unfold stepAt, joinStep, writePush. cbn. rewrite HE. cbn.
  rewrite !lookup_insert_eq. reflexivity.
Qed.

(** When two joins by different users on an event with one seat left run
    one after the other, the first succeeds and the second fails with
    CapacityExceeded and changes nothing. *)
Lemma sequential_joins_last_seat env env2 a1 a2 id db E m :
  events db !! id = Some E ->
  schemaValid env E = true ->
  maxAttendees E = Some m ->
  Z.of_nat (length (attendees E)) = m - 1 ->
  actor_id a1 ∉ attendees E ->
  actor_id a2 ∉ attendees E ->
  actor_id a1 <> actor_id a2 ->
  let first := joinEvent env a1 id db in
  let second := joinEvent env2 a2 id first.1 in
  succeeded first.2 = true
  /\ second = (first.1, CapacityExceeded)
  /\ runSchedule env oneAfterTheOther
       (db, [mkJoinReq a1 id JStart; mkJoinReq a2 id JStart])
     = (first.1, [mkJoinReq a1 id (JReplied first.2);
                  mkJoinReq a2 id (JReplied CapacityExceeded)]).
Proof.
  intros HE Hvalid Hm Hlen H1 H2 Hne first second.
  assert (Hfull : isFull E = false).
  { unfold isFull. rewrite Hm.
    replace (m <=? Z.of_nat (length (attendees E))) with false
      by (symmetry; apply Z.leb_gt; lia).
    apply andb_false_r. }
  apply includes_false in H1 as H1'.
  pose proof (joinEvent_success env a1 id db E HE H1' Hfull Hvalid) as Hfirst.
  cbv zeta in Hfirst. fold first in Hfirst.
  set (E' := preSave (set_attendees (attendees E ++ [actor_id a1]) E)) in *.
  assert (Hsecond : forall env', joinEvent env' a2 id first.1 = (first.1, CapacityExceeded)).
  { intros env'. rewrite Hfirst. unfold joinEvent. cbn.
    rewrite lookup_insert_eq.
    replace (includes (actor_id a2) (attendees E')) with false.
    2:{ symmetry. apply includes_false. cbn.
        rewrite elem_of_app, list_elem_of_singleton. intros [?|?]; [done|congruence]. }
    replace (isFull E') with true; [done|].
    symmetry. unfold isFull. cbn. rewrite Hm, length_app. cbn.
    apply andb_true_iff. split.
    - apply negb_true_iff, Z.eqb_neq. lia.
    - apply Z.leb_le. lia. }
  split; [by rewrite Hfirst|]. split; [apply Hsecond|].
  unfold oneAfterTheOther.
  change [0; 0; 0; 0; 1; 1; 1; 1]%nat with ([0; 0; 0; 0] ++ [1; 1; 1; 1])%nat.
  unfold runSchedule. rewrite fold_left_app.
  fold (runSchedule env [0; 0; 0; 0]%nat (db, [mkJoinReq a1 id JStart; mkJoinReq a2 id JStart])).
  rewrite first_request_alone. fold first.
  fold (runSchedule env [1; 1; 1; 1]%nat
          (first.1, [mkJoinReq a1 id (JReplied first.2); mkJoinReq a2 id JStart])).
  rewrite second_request_alone. by rewrite Hsecond.
Qed.

Lemma stepAt_first env db r1 r2 :
  stepAt env 0 (db, [r1; r2]) = ((joinStep env r1 db).1, [(joinStep env r1 db).2; r2]).
Proof. unfold stepAt. cbn. by destruct (joinStep env r1 db). Qed.

Lemma stepAt_second env db r1 r2 :
  stepAt env 1 (db, [r1; r2]) = ((joinStep env r2 db).1, [r1; (joinStep env r2 db).2]).
Proof. unfold stepAt. cbn. by destruct (joinStep env r2 db). Qed.

(** C4.  The capacity check and the write are separate steps, each after an
    [await].  On an event with one seat left and two users who do not
    attend it: run one after the other, the first join succeeds and the
    second is refused with CapacityExceeded; but when both requests load the
    event before either saves, both pass the check and both are answered
    with success, and the event is left with one attendee more than its
    capacity and a count that is not the number of its attendees. *)
Theorem concurrent_joins_exceed_capacity env a1 a2 id db E m :
  events db !! id = Some E ->
  schemaValid env E = true ->
  maxAttendees E = Some m ->
  Z.of_nat (length (attendees E)) = m - 1 ->
  actor_id a1 ∉ attendees E ->
  actor_id a2 ∉ attendees E ->
  actor_id a1 <> actor_id a2 ->
  let requests := [mkJoinReq a1 id JStart; mkJoinReq a2 id JStart] in
  let E' := mkEvent (title E) (creatorName E) (creator E) (description E) (location E)
                    (dateTime E) m (attendees E ++ [actor_id a1; actor_id a2])
                    (Some m) (status E) (category E) in
  (exists db1 r1,
     runSchedule env oneAfterTheOther (db, requests)
     = (db1, [mkJoinReq a1 id (JReplied r1); mkJoinReq a2 id (JReplied CapacityExceeded)])
     /\ succeeded r1 = true)
  /\ (exists db2,
        runSchedule env inTurn (db, requests)
        = (db2, [mkJoinReq a1 id (JReplied (Done 200 "Successfully joined the event" (Some E')));
                 mkJoinReq a2 id (JReplied (Done 200 "Successfully joined the event" (Some E')))])
        /\ events db2 !! id = Some E'
        /\ m < Z.of_nat (length (attendees E'))
        /\ attendeeCount E' <> Z.of_nat (length (attendees E'))).
Proof.
  intros HE Hvalid Hm Hlen H1 H2 Hne requests E'. split.
  - destruct (sequential_joins_last_seat env env a1 a2 id db E m HE Hvalid Hm Hlen H1 H2 Hne)
      as (Hok & _ & Hrun).
    eexists _, _. split; [exact Hrun|exact Hok].
  - assert (Hfull : isFull E = false).
    { unfold isFull. rewrite Hm.
      replace (m <=? Z.of_nat (length (attendees E))) with false
        by (symmetry; apply Z.leb_gt; lia).
      apply andb_false_r. }
    assert (Hload : forall a, actor_id a ∉ attendees E ->
              joinStep env (mkJoinReq a id JStart) db
              = (db, mkJoinReq a id
                       (JSaving (preSave (set_attendees (attendees E ++ [actor_id a]) E))))).
    { intros a Ha. apply includes_false in Ha. unfold joinStep. cbn [j_state j_id j_actor].
      by rewrite HE, Ha, Hfull, schemaValid_set_attendees, Hvalid. }
    assert (Hcount : forall a, attendeeCount (preSave (set_attendees (attendees E ++ [actor_id a]) E))
                               = m).
    { intros a. cbn. rewrite length_app. cbn. lia. }
    unfold requests, inTurn, runSchedule. cbn [fold_left].
    rewrite stepAt_first, (Hload a1 H1). cbn [fst snd].
    rewrite stepAt_second, (Hload a2 H2). cbn [fst snd].
    rewrite stepAt_first. unfold joinStep at 1 2. cbn [j_state j_id j_actor].
    rewrite Hcount. unfold writePush at 1 2. rewrite HE. cbn [fst snd].
    rewrite stepAt_second. unfold joinStep at 1 2. cbn [j_state j_id j_actor].
    rewrite Hcount. unfold writePush at 1 2. cbn [events set_events].
    rewrite lookup_insert_eq. cbn [fst snd].
    rewrite stepAt_first. unfold joinStep at 1 2. cbn [j_state j_id j_actor fst snd].
    rewrite stepAt_second. unfold joinStep at 1 2. cbn [j_state j_id j_actor fst snd].
    rewrite stepAt_first. unfold joinStep at 1 2. cbn [j_state j_id j_actor fst snd].
    rewrite stepAt_second. unfold joinStep at 1 2. cbn [j_state j_id j_actor fst snd].
    assert (HE' : set_attendeeCount m
                    (set_attendees
                       (attendees (set_attendeeCount m
                                     (set_attendees (attendees E ++ [actor_id a1]) E))
                        ++ [actor_id a2])
                       (set_attendeeCount m (set_attendees (attendees E ++ [actor_id a1]) E)))
                  = E').
    { unfold E', set_attendeeCount, set_attendees. cbn. rewrite <- app_assoc. cbn.
      by rewrite Hm. }
    unfold pushJoined, set_users, set_events. cbn [events users].
    rewrite insert_insert_eq, !lookup_insert_eq, HE'.
    eexists. split; [reflexivity|]. split; [cbn [events]; apply lookup_insert_eq|].
    unfold E'. cbn. rewrite length_app. cbn. lia.
Qed.

Lemma concurrent_joins_exceed_capacity_witness :
  exists db,
    runSchedule utcEnv inTurn (lastSeatDb, twoJoins)
    = (db, [mkJoinReq bob 1 (JReplied (Done 200 "Successfully joined the event"
                                         (Some (set_attendees [10; 11; 12] (set_attendeeCount 2 lastSeat)))));
            mkJoinReq carol 1 (JReplied (Done 200 "Successfully joined the event"
                                           (Some (set_attendees [10; 11; 12] (set_attendeeCount 2 lastSeat)))))])
    /\ events db !! 1 = Some (set_attendees [10; 11; 12] (set_attendeeCount 2 lastSeat))
    /\ 2 < Z.of_nat (length [10; 11; 12])
    /\ 2 <> Z.of_nat (length [10; 11; 12]).
Proof.
  refine (proj2 (concurrent_joins_exceed_capacity utcEnv bob carol 1 lastSeatDb lastSeat 2
                   eq_refl _ eq_refl eq_refl _ _ _)).
  - vm_compute. reflexivity.
  - cbn. rewrite list_elem_of_singleton. discriminate.
  - cbn. rewrite list_elem_of_singleton. discriminate.
  - discriminate.
Defined.

(** ** Leaving *)

(** X1.  On a stored event [E]: the leave fails with NotMember, changing
    nothing, when the caller is not among the attendees; else, [save]
    accepting the document, it stores [E] without the caller and with the
    count recomputed, removes the event from the caller's joined events, and
    a second leave then fails with NotMember. *)
Theorem leave_outcomes env env2 actor id db E :
  events db !! id = Some E ->
  let u := actor_id actor in
  let rest := List.filter (fun a => negb (a =? u)) (attendees E) in
  let E' := mkEvent (title E) (creatorName E) (creator E) (description E) (location E)
                    (dateTime E) (Z.of_nat (length rest)) rest (maxAttendees E)
                    (status E) (category E) in
  let db' := mkDb (<[id := E']> (events db))
                  (alter (fun U => mkUser (name U) (pull id (joinedEvents U)) (createdEvents U))
                         u (users db)) in
  (u ∉ attendees E -> leaveEvent env actor id db = (db, NotMember))
  /\ (u ∈ attendees E -> schemaValid env E = true ->
      leaveEvent env actor id db = (db', Done 200 "Successfully left the event" (Some E'))
      /\ (u ∉ attendees E')
      /\ leaveEvent env2 actor id db' = (db', NotMember)).
Proof.
  intros HE u rest E' db'. split.
  - intros Hnin. unfold leaveEvent. rewrite HE.
    apply includes_false in Hnin. fold u. by rewrite Hnin.
  - intros Hin Hvalid.
    assert (Hnot : u ∉ attendees E').
    { cbn. unfold rest. rewrite elem_of_without. tauto. }
    split; [|split; [exact Hnot|]].
    + unfold leaveEvent, save. rewrite HE.
      apply includes_true in Hin. fold u. rewrite Hin. cbn.
      rewrite schemaValid_set_attendees, Hvalid. cbn.
      by rewrite lookup_insert_eq.
    + unfold leaveEvent. cbn. rewrite lookup_insert_eq.
      apply includes_false in Hnot. fold u. by rewrite Hnot.
Qed.

(** X2.  Joining and leaving go through [save], which validates the whole
    document: once the event's [dateTime] is not after the current time, a
    join by a user who could join and a leave by a member are both answered
    with status 500 and change nothing. *)
Theorem expired_event_is_frozen env actor id db E :
  events db !! id = Some E ->
  dateTime E <= now env ->
  (actor_id actor ∉ attendees E -> isFull E = false ->
   joinEvent env actor id db = (db, Fail 500 "Failed to join event"))
  /\ (actor_id actor ∈ attendees E ->
      leaveEvent env actor id db = (db, Fail 500 "Failed to leave event")).
Proof.
  intros HE Hpast.
  assert (Hinvalid : schemaValid env E = false).
  { unfold schemaValid, valid_dateTime.
    replace (now env <? dateTime E) with false by (symmetry; apply Z.ltb_ge; exact Hpast).
    rewrite !andb_false_r. reflexivity. }
  split.
  - intros Hnin Hfull. unfold joinEvent, save. rewrite HE.
    apply includes_false in Hnin. rewrite Hnin, Hfull.
    by rewrite schemaValid_set_attendees, Hinvalid.
  - intros Hin. unfold leaveEvent, save. rewrite HE.
    apply includes_true in Hin. rewrite Hin. cbn.
    by rewrite schemaValid_set_attendees, Hinvalid.
Qed.

Lemma expired_event_is_frozen_witness :
  joinEvent pastEnv bob 1 meetupDb = (meetupDb, Fail 500 "Failed to join event").
Proof.
  refine (proj1 (expired_event_is_frozen pastEnv bob 1 meetupDb meetup eq_refl _) _ eq_refl).
  - vm_compute. discriminate.
  - cbn. apply not_elem_of_nil.
Defined.

Lemma leave_outcomes_witness :
  leaveEvent utcEnv alice 1 lastSeatDb
  = (mkDb (<[1 := set_attendeeCount 0 (set_attendees [] lastSeat)]> (events lastSeatDb))
          (alter (fun U => mkUser (name U) (pull 1 (joinedEvents U)) (createdEvents U))
                 10 (users lastSeatDb)),
     Done 200 "Successfully left the event"
          (Some (set_attendeeCount 0 (set_attendees [] lastSeat)))).
Proof.
  refine (proj1 (proj2 (leave_outcomes utcEnv utcEnv alice 1 lastSeatDb lastSeat eq_refl) _ eq_refl)).
  cbn. apply list_elem_of_singleton. reflexivity.
Defined.

(** ** Joining, then leaving *)

Lemma without_appended (u : Z) (l : list Z) :
  u ∉ l -> List.filter (fun a => negb (a =? u)) (l ++ [u]) = l.
Proof.
  intros Hnin. rewrite List.filter_app. cbn. rewrite Z.eqb_refl. cbn.
  rewrite app_nil_r. apply forallb_filter_id.
  apply forallb_forall. intros x Hx. apply negb_true_iff, Z.eqb_neq.
  intros ->. apply Hnin. by apply list_elem_of_In.
Qed.

Lemma schemaValid_preSave env e :
  schemaValid env e = true -> schemaValid env (preSave e) = true.
Proof.
  unfold schemaValid, preSave, set_attendeeCount.
  cbn [title creatorName creator description location dateTime attendeeCount
       attendees maxAttendees status category].
  rewrite !andb_true_iff. intros H.
  repeat split; try tauto. apply Z.leb_le. lia.
Qed.

(** X3.  A join followed by the same user's leave puts the events and the
    users, in the fields of the model, back as they were, when the user was
    not attending, the event's stored count was right, it was not among the
    user's joined events, and the event passes the schema's validation at
    both requests (its date is still in the future at the leave). *)
Theorem join_then_leave_restores env env2 actor id db E :
  events db !! id = Some E ->
  schemaValid env E = true ->
  schemaValid env2 E = true ->
  actor_id actor ∉ attendees E ->
  isFull E = false ->
  countConsistent E ->
  (forall U, users db !! actor_id actor = Some U -> id ∉ joinedEvents U) ->
  succeeded (joinEvent env actor id db).2 = true
  /\ succeeded (leaveEvent env2 actor id (joinEvent env actor id db).1).2 = true
  /\ (leaveEvent env2 actor id (joinEvent env actor id db).1).1 = db.
Proof.
  intros HE Hv1 Hv2 Hnin Hfull Hcount Hfresh.
  apply includes_false in Hnin as Hinc.
  rewrite (joinEvent_success env actor id db E HE Hinc Hfull Hv1). cbn [fst snd].
  split; [reflexivity|].
  set (E1 := preSave (set_attendees (attendees E ++ [actor_id actor]) E)).
  unfold leaveEvent, save. cbn [events set_events pushJoined set_users].
  rewrite lookup_insert_eq.
  replace (includes (actor_id actor) (attendees E1)) with true.
  2:{ symmetry. apply includes_true. cbn.
      rewrite elem_of_app, list_elem_of_singleton. tauto. }
  assert (Hv3 : schemaValid env2 E1 = true).
  { apply schemaValid_preSave. by rewrite schemaValid_set_attendees. }
  cbn [negb]. rewrite schemaValid_set_attendees, Hv3.
  cbn [fst snd succeeded]. split; [reflexivity|].
  destruct db as [evs usrs]. unfold pullJoined, set_users, set_events. cbn.
  f_equal.
  - rewrite insert_insert_eq. apply insert_id. cbn in HE. rewrite HE. f_equal.
    unfold preSave, set_attendeeCount, set_attendees, E1. cbn.
    rewrite (without_appended _ _ Hnin).
    destruct E. cbn in *. unfold countConsistent in Hcount. cbn in Hcount.
    by rewrite Hcount.
  - apply map_eq. intros k.
    destruct (decide (actor_id actor = k)) as [<-|Hne];
      [rewrite !lookup_alter_eq | by rewrite !lookup_alter_ne].
    cbn in Hfresh. destruct (usrs !! actor_id actor) as [U|] eqn:HU; [|done].
    cbn. f_equal. destruct U as [nm joined created]. cbn. f_equal.
    specialize (Hfresh _ eq_refl). cbn in Hfresh.
    unfold pull. apply without_appended. exact Hfresh.
Qed.

Lemma join_then_leave_restores_witness :
  (leaveEvent utcEnv bob 1 (joinEvent utcEnv bob 1 meetupDb).1).1 = meetupDb.
Proof.
  refine (proj2 (proj2 (join_then_leave_restores utcEnv utcEnv bob 1 meetupDb meetup
                          eq_refl eq_refl eq_refl _ eq_refl eq_refl _))).
  - cbn. apply not_elem_of_nil.
  - intros U HU. vm_compute in HU. injection HU as <-. cbn. apply not_elem_of_nil.
Defined.

(** ** Deleting *)

(** X4.  A delete of a missing event is answered NotFound and a delete by
    anyone but the creator Forbidden, both changing nothing; the creator's
    delete removes the event, takes its id off the creator's created events
    and off every user's joined events, and leaves every other event and
    every user's name as they were. *)
Theorem delete_outcomes actor id db :
  (events db !! id = None -> deleteEvent actor id db = (db, NotFound))
  /\ (forall E, events db !! id = Some E -> creator E <> actor_id actor ->
        deleteEvent actor id db = (db, ForbiddenDelete))
  /\ (forall E, events db !! id = Some E -> creator E = actor_id actor ->
        exists db',
          deleteEvent actor id db = (db', Removed "Event deleted successfully")
          /\ events db' = delete id (events db)
          /\ (forall u U, users db !! u = Some U ->
                users db' !! u
                = Some (mkUser (name U) (pull id (joinedEvents U))
                               (if decide (u = actor_id actor)
                                then pull id (createdEvents U) else createdEvents U)))
          /\ (forall u, users db !! u = None -> users db' !! u = None)).
Proof.
  split; [|split].
  - intros HE. unfold deleteEvent. by rewrite HE.
  - intros E HE Hne. unfold deleteEvent. rewrite HE.
    apply Z.eqb_neq in Hne. by rewrite Hne.
  - intros E HE Heq. unfold deleteEvent. rewrite HE.
    apply Z.eqb_eq in Heq. rewrite Heq. cbn.
    eexists. split; [reflexivity|]. split; [reflexivity|]. cbn. split.
    + intros u U HU. rewrite lookup_fmap, lookup_alter.
      destruct (decide (actor_id actor = u)) as [->|Hne].
      * rewrite HU. cbn. rewrite decide_True by done. reflexivity.
      * rewrite HU. cbn. rewrite decide_False by congruence. reflexivity.
    + intros u HU. rewrite lookup_fmap, lookup_alter.
      destruct (decide (actor_id actor = u)) as [->|Hne]; by rewrite HU.
Qed.

Lemma deleteEvent_cases actor id db db' r :
  deleteEvent actor id db = (db', r) ->
  (db' = db /\ succeeded r = false) \/
  (exists E, events db !! id = Some E /\ creator E = actor_id actor
     /\ db' = pullJoinedEverywhere id
                (pullCreated (actor_id actor) id (set_events (delete id (events db)) db))
     /\ r = Removed "Event deleted successfully").
Proof.
  unfold deleteEvent. intros H.
  destruct (events db !! id) as [E|] eqn:HE; [|left; by inversion H].
  destruct (creator E =? actor_id actor) eqn:Hc; cbn in H; [|left; by inversion H].
  right. exists E. apply Z.eqb_eq in Hc. inversion H; subst. by repeat split.
Qed.

(** X5.  Once an event is deleted, reading it, joining it, leaving it and
    deleting it again are all answered NotFound, and so is an update whose
    body passes the route's validation. *)
Theorem deleted_event_is_gone env actor other id body db db' r :
  deleteEvent actor id db = (db', r) ->
  succeeded r = true ->
  getEvent id db' = Missing 404 "Event not found"
  /\ joinEvent env other id db' = (db', NotFound)
  /\ leaveEvent env other id db' = (db', NotFound)
  /\ deleteEvent other id db' = (db', NotFound)
  /\ (updateErrors env body = [] -> updateEvent env other id body db' = (db', NotFound)).
Proof.
  intros H Hok.
  apply deleteEvent_cases in H as [[_ Hf]|(E & HE & Hc & -> & _)]; [congruence|].
  set (db' := pullJoinedEverywhere _ _).
  assert (Hgone : events db' !! id = None) by (cbn; apply lookup_delete_eq).
  unfold getEvent, joinEvent, leaveEvent, deleteEvent, updateEvent.
  rewrite Hgone. repeat split. intros ->. reflexivity.
Qed.

Lemma deleted_event_is_gone_witness :
  joinEvent utcEnv bob 1 (deleteEvent alice 1 meetupDb).1
  = ((deleteEvent alice 1 meetupDb).1, NotFound).
Proof.
  refine (proj1 (proj2 (deleted_event_is_gone utcEnv alice bob 1 newTitle meetupDb
                          (deleteEvent alice 1 meetupDb).1 (deleteEvent alice 1 meetupDb).2
                          _ _))).
  - apply surjective_pairing.
  - vm_compute. reflexivity.
Defined.

(** ** Failures *)

Lemma createEvent_cases env actor newId body db db' r :
  createEvent env actor newId body db = (db', r) ->
  (db' = db /\ succeeded r = false) \/
  (exists t, createErrors env body = [] /\ c_dateTime body ≫= castString = Some t
     /\ events db !! newId = None
     /\ schemaValid env (newEvent actor body t) = true
     /\ db' = pushCreated (actor_id actor) newId
                (set_events (<[newId := preSave (newEvent actor body t)]> (events db)) db)
     /\ r = Done 201 "Event created successfully" (Some (preSave (newEvent actor body t)))).
Proof.
  unfold createEvent, saveNew, save. intros H.
  destruct (createErrors env body) as [|msg errs] eqn:Herr; cbn in H; [|left; by inversion H].
  destruct (c_dateTime body ≫= castString) as [t|]; [|left; by inversion H].
  destruct (events db !! newId) eqn:Hfresh; [left; by inversion H|].
  destruct (schemaValid env (newEvent actor body t)) eqn:Hv; [|left; by inversion H].
  cbn in H. rewrite lookup_insert_eq in H.
  right. exists t. inversion H; subst. by repeat split.
Qed.

(** X6.  A creation, an update, a delete or a leave that is answered with a
    failure leaves the database exactly as it was. *)
Theorem failed_requests_change_nothing env actor id newId cbody ubody db db' r :
  createEvent env actor newId cbody db = (db', r)
  \/ updateEvent env actor id ubody db = (db', r)
  \/ deleteEvent actor id db = (db', r)
  \/ leaveEvent env actor id db = (db', r) ->
  succeeded r = false ->
  db' = db.
Proof.
  intros [H|[H|[H|H]]] Hf.
  - apply createEvent_cases in H as [[-> _]|(t & _ & _ & _ & _ & _ & ->)]; [done|discriminate].
  - apply updateEvent_cases in H as [[-> _]|(E & _ & _ & _ & _ & _ & ->)]; [done|discriminate].
  - apply deleteEvent_cases in H as [[-> _]|(E & _ & _ & _ & ->)]; [done|discriminate].
  - apply leaveEvent_cases in H as [[-> _]|(E & _ & _ & _ & _ & Hs)]; [done|congruence].
Qed.

Lemma failed_requests_change_nothing_witness :
  (deleteEvent bob 1 meetupDb).1 = meetupDb.
Proof.
  refine (failed_requests_change_nothing utcEnv bob 1 2 launchParty newTitle meetupDb
            (deleteEvent bob 1 meetupDb).1 (deleteEvent bob 1 meetupDb).2 _ _).
  - right. right. left. apply surjective_pairing.
  - vm_compute. reflexivity.
Defined.

(** ** What joining and leaving keep *)

Lemma filter_length_le {A} (f : A -> bool) (l : list A) :
  (length (List.filter f l) <= length l)%nat.
Proof. induction l as [|x l IH]; cbn; [lia|]. destruct (f x); cbn; lia. Qed.

(** X7.  If every stored event has the right count, lists each attendee
    once and respects its capacity, then so does every stored event after a
    join or a leave, whatever the reply. *)
Theorem join_leave_keep_events_ok env actor id db db' r :
  (forall e E, events db !! e = Some E -> eventOk E) ->
  joinEvent env actor id db = (db', r) \/ leaveEvent env actor id db = (db', r) ->
  forall e E, events db' !! e = Some E -> eventOk E.
Proof.
  intros Hok [Hj|Hl] e E'.
  - apply joinEvent_cases in Hj as [[-> _]|(E & HE & Hinc & Hfull & _ & -> & _)]; [apply Hok|].
    cbn. rewrite lookup_insert. destruct (decide (id = e)) as [->|]; [|apply Hok].
    intros [= <-]. destruct (Hok _ _ HE) as (_ & Hnd & Hcap).
    split; [reflexivity|]. cbn. split.
    + apply NoDup_app. split; [exact Hnd|]. split; [|apply NoDup_singleton].
      intros x Hx Hx'. apply list_elem_of_singleton in Hx'. subst x.
      by apply includes_false in Hinc.
    + intros m Hm Hm0. rewrite length_app. cbn.
      unfold isFull in Hfull. rewrite Hm in Hfull.
      apply Z.eqb_neq in Hm0. rewrite Hm0 in Hfull. cbn in Hfull.
      apply Z.leb_gt in Hfull. lia.
  - apply leaveEvent_cases in Hl as [[-> _]|(E & HE & _ & _ & -> & _)]; [apply Hok|].
    cbn. rewrite lookup_insert. destruct (decide (id = e)) as [->|]; [|apply Hok].
    intros [= <-]. destruct (Hok _ _ HE) as (_ & Hnd & Hcap).
    split; [reflexivity|]. cbn. split.
    + apply NoDup_ListNoDup, List.NoDup_filter, NoDup_ListNoDup, Hnd.
    + intros m Hm Hm0. specialize (Hcap m Hm Hm0).
      pose proof (filter_length_le (fun a => negb (a =? actor_id actor)) (attendees E)). lia.
Qed.

Lemma join_leave_keep_events_ok_witness :
  eventOk (set_attendeeCount 2 (set_attendees [10; 11] lastSeat)).
Proof.
  refine (join_leave_keep_events_ok utcEnv bob 1 lastSeatDb _ (joinEvent utcEnv bob 1 lastSeatDb).2
            _ (or_introl (surjective_pairing _)) 1 _ _).
  - intros e E. unfold lastSeatDb. cbn. rewrite lookup_insert.
    destruct (decide (1 = e)); [|by rewrite lookup_empty].
    intros [= <-]. split; [reflexivity|]. split.
    + cbn. apply NoDup_singleton.
    + cbn. intros m [= <-] _. lia.
  - vm_compute. reflexivity.
Defined.

(** X8.  A join or a leave on event [id] by [actor] touches nothing else: every
    other event and every other user are as before; of event [id] only the
    attendees and their count may change, and of the caller only the joined
    events. *)
Theorem join_leave_frame env actor id db db' r :
  joinEvent env actor id db = (db', r) \/ leaveEvent env actor id db = (db', r) ->
  (forall e, e <> id -> events db' !! e = events db !! e)
  /\ (forall u, u <> actor_id actor -> users db' !! u = users db !! u)
  /\ (forall E, events db !! id = Some E ->
        exists E', events db' !! id = Some E'
          /\ title E' = title E /\ description E' = description E
          /\ location E' = location E /\ dateTime E' = dateTime E
          /\ creator E' = creator E /\ creatorName E' = creatorName E
          /\ maxAttendees E' = maxAttendees E /\ status E' = status E
          /\ category E' = category E)
  /\ (forall U, users db !! actor_id actor = Some U ->
        exists U', users db' !! actor_id actor = Some U'
          /\ name U' = name U /\ createdEvents U' = createdEvents U).
Proof.
  intros [Hj|Hl].
  - apply joinEvent_cases in Hj as [[-> _]|(E & HE & _ & _ & _ & -> & _)].
    { repeat split; eauto 12. }
    cbn. split; [|split; [|split]].
    + intros e Hne. by rewrite lookup_insert_ne.
    + intros u Hne. by rewrite lookup_alter_ne.
    + intros E0 HE0. rewrite lookup_insert_eq. eexists. split; [done|].
      rewrite HE in HE0. injection HE0 as <-. by repeat split.
    + intros U HU. rewrite lookup_alter_eq, HU. eexists. by repeat split.
  - apply leaveEvent_cases in Hl as [[-> _]|(E & HE & _ & _ & -> & _)].
    { repeat split; eauto 12. }
    cbn. split; [|split; [|split]].
    + intros e Hne. by rewrite lookup_insert_ne.
    + intros u Hne. by rewrite lookup_alter_ne.
    + intros E0 HE0. rewrite lookup_insert_eq. eexists. split; [done|].
      rewrite HE in HE0. injection HE0 as <-. by repeat split.
    + intros U HU. rewrite lookup_alter_eq, HU. eexists. by repeat split.
Qed.

Lemma join_leave_frame_witness :
  users (joinEvent utcEnv bob 1 meetupDb).1 !! 10 = users meetupDb !! 10.
Proof.
  refine (proj1 (proj2 (join_leave_frame utcEnv bob 1 meetupDb
                          (joinEvent utcEnv bob 1 meetupDb).1 (joinEvent utcEnv bob 1 meetupDb).2
                          (or_introl (surjective_pairing _)))) 10 _).
  cbn. discriminate.
Defined.

(** ** References between the stores *)

Lemma create_keeps_stores env actor newId body db db' r :
  membershipConsistent db -> joinedRefsExist db ->
  createEvent env actor newId body db = (db', r) ->
  membershipConsistent db' /\ joinedRefsExist db'.
Proof.
  intros Hm Hr H.
  apply createEvent_cases in H as [[-> _]|(t & _ & _ & Hfresh & _ & -> & _)]; [done|].
  assert (Hnew : forall u U, users db !! u = Some U -> newId ∉ joinedEvents U).
  { intros u U HU Hin. destruct (Hr u newId U HU Hin) as [E HE]. congruence. }
  split.
  - intros e u E U. cbn. rewrite lookup_insert, lookup_alter.
    destruct (decide (newId = e)) as [->|Hne].
    + intros [= <-]. cbn.
      destruct (decide (actor_id actor = u)) as [->|].
      * destruct (users db !! u) as [U0|] eqn:HU; [|done]. cbn. intros [= <-]. cbn.
        split; [by intros ?%not_elem_of_nil|]. intros Hin. by apply Hnew in HU.
      * intros HU. split; [by intros ?%not_elem_of_nil|]. intros Hin. by apply Hnew in HU.
    + intros HE. destruct (decide (actor_id actor = u)) as [->|].
      * destruct (users db !! u) as [U0|] eqn:HU; [|done]. cbn. intros [= <-]. cbn.
        by apply Hm.
      * intros HU. by apply Hm.
  - intros u e U. cbn. rewrite lookup_alter, lookup_insert.
    intros HU Hin.
    assert (Hold : exists U0, users db !! u = Some U0 /\ e ∈ joinedEvents U0).
    { destruct (decide (actor_id actor = u)) as [->|]; [|eauto].
      destruct (users db !! u) as [U0|]; [|done]. cbn in HU. injection HU as <-. eauto. }
    destruct Hold as (U0 & HU0 & Hin0).
    destruct (decide (newId = e)); [done|]. by eapply Hr.
Qed.

Lemma delete_keeps_stores actor id db db' r :
  membershipConsistent db -> joinedRefsExist db ->
  deleteEvent actor id db = (db', r) ->
  membershipConsistent db' /\ joinedRefsExist db'.
Proof.
  intros Hm Hr H.
  apply deleteEvent_cases in H as [[-> _]|(E0 & _ & _ & -> & _)]; [done|].
  assert (Huser : forall u U', users (pullJoinedEverywhere id
                     (pullCreated (actor_id actor) id (set_events (delete id (events db)) db)))
                     !! u = Some U' ->
            exists U, users db !! u = Some U /\ joinedEvents U' = pull id (joinedEvents U)).
  { intros u U'. cbn. rewrite lookup_fmap, lookup_alter.
    destruct (decide (actor_id actor = u)) as [->|];
      destruct (users db !! u) as [U|]; cbn; try done; intros [= <-]; eauto. }
  split.
  - intros e u E U' HE HU. cbn in HE. apply lookup_delete_Some in HE as [Hne HE].
    destruct (Huser _ _ HU) as (U & HU0 & ->).
    rewrite elem_of_pull. specialize (Hm e u E U HE HU0). split; [|tauto].
    intros ?. split; [tauto|congruence].
  - intros u e U' HU Hin. destruct (Huser _ _ HU) as (U & HU0 & Hj).
    rewrite Hj in Hin. apply elem_of_pull in Hin as [Hin Hne].
    cbn. rewrite lookup_delete_ne by congruence. by eapply Hr.
Qed.

Lemma join_leave_keep_refs env actor id db db' r :
  joinedRefsExist db ->
  joinEvent env actor id db = (db', r) \/ leaveEvent env actor id db = (db', r) ->
  joinedRefsExist db'.
Proof.
  intros Hr [Hj|Hl].
  - apply joinEvent_cases in Hj as [[-> _]|(E & HE & _ & _ & _ & -> & _)]; [done|].
    intros u e U. cbn. rewrite lookup_alter, lookup_insert. intros HU Hin.
    destruct (decide (id = e)); [done|].
    destruct (decide (actor_id actor = u)) as [->|]; [|by eapply Hr].
    destruct (users db !! u) as [U0|] eqn:HU0; [|done]. cbn in HU. injection HU as <-.
    cbn in Hin. apply elem_of_app in Hin as [Hin|Hin%list_elem_of_singleton]; [|congruence].
    by eapply Hr.
  - apply leaveEvent_cases in Hl as [[-> _]|(E & HE & _ & _ & -> & _)]; [done|].
    intros u e U. cbn. rewrite lookup_alter, lookup_insert. intros HU Hin.
    destruct (decide (id = e)); [done|].
    destruct (decide (actor_id actor = u)) as [->|]; [|by eapply Hr].
    destruct (users db !! u) as [U0|] eqn:HU0; [|done]. cbn in HU. injection HU as <-.
    cbn in Hin. apply elem_of_pull in Hin as [Hin _]. by eapply Hr.
Qed.

(** X9.  If attendance is recorded on both sides and every joined event of
    every user is a stored event, the same holds after a creation, a join, a
    leave or a delete, whatever the reply: in particular a delete leaves no
    user with the deleted event among the joined ones. *)
Theorem stores_stay_consistent env actor id newId body db db' r :
  membershipConsistent db ->
  joinedRefsExist db ->
  createEvent env actor newId body db = (db', r)
  \/ joinEvent env actor id db = (db', r)
  \/ leaveEvent env actor id db = (db', r)
  \/ deleteEvent actor id db = (db', r) ->
  membershipConsistent db' /\ joinedRefsExist db'
  /\ (deleteEvent actor id db = (db', r) -> succeeded r = true ->
      forall u U, users db' !! u = Some U -> id ∉ joinedEvents U).
Proof.
  intros Hm Hr Hop.
  assert (Hboth : membershipConsistent db' /\ joinedRefsExist db').
  { destruct Hop as [H|[H|[H|H]]].
    - by eapply create_keeps_stores.
    - split; [|by eapply join_leave_keep_refs; eauto].
      apply joinEvent_cases in H as [[-> _]|(E & HE & _ & _ & _ & -> & _)]; [done|].
      by apply join_keeps_membership.
    - split; [|by eapply join_leave_keep_refs; eauto].
      apply leaveEvent_cases in H as [[-> _]|(E & HE & _ & _ & -> & _)]; [done|].
      by apply leave_keeps_membership.
    - by eapply delete_keeps_stores. }
  destruct Hboth as [Hm' Hr']. split; [done|]. split; [done|].
  intros Hd Hok u U HU Hin.
  destruct (Hr' u id U HU Hin) as [E HE].
  apply deleteEvent_cases in Hd as [[_ Hf]|(E0 & _ & _ & -> & _)]; [congruence|].
  cbn in HE. by rewrite lookup_delete_eq in HE.
Qed.

Lemma joinedRefsExistb_sound db :
  joinedRefsExistb db = true -> joinedRefsExist db.
Proof.
  unfold joinedRefsExistb, joinedRefsExist.
  rewrite forallb_forall. intros H u e U HU Hin.
  apply elem_of_map_to_list, list_elem_of_In in HU.
  specialize (H _ HU). rewrite forallb_forall in H.
  apply list_elem_of_In in Hin. specialize (H _ Hin).
  by apply bool_decide_eq_true in H.
Qed.

Lemma stores_stay_consistent_witness :
  membershipConsistent (deleteEvent alice 1 lastSeatDb).1
  /\ joinedRefsExist (deleteEvent alice 1 lastSeatDb).1.
Proof.
  destruct (stores_stay_consistent utcEnv alice 1 2 launchParty lastSeatDb
              (deleteEvent alice 1 lastSeatDb).1 (deleteEvent alice 1 lastSeatDb).2)
    as (H1 & H2 & _).
  - apply membershipConsistentb_sound. vm_compute. reflexivity.
  - apply joinedRefsExistb_sound. vm_compute. reflexivity.
  - right. right. right. apply surjective_pairing.
  - split; assumption.
Defined.

(** ** Updating *)

(** X10.  A successful update changes event [id] and nothing else: the users
    and every other event are as before; and when the body gives none of
    status, creator, creatorName, attendees, attendeeCount and maxAttendees,
    those six keep their values. *)
Theorem update_scope env actor id body db db' r :
  updateEvent env actor id body db = (db', r) ->
  users db' = users db
  /\ (forall e, e <> id -> events db' !! e = events db !! e)
  /\ (succeeded r = true ->
      u_status body = None -> u_creator body = None -> u_creatorName body = None ->
      u_attendees body = None -> u_attendeeCount body = None -> u_maxAttendees body = None ->
      exists E E', events db !! id = Some E /\ events db' !! id = Some E'
        /\ creator E' = actor_id actor
        /\ creator E' = creator E /\ creatorName E' = creatorName E
        /\ attendees E' = attendees E /\ attendeeCount E' = attendeeCount E
        /\ maxAttendees E' = maxAttendees E /\ status E' = status E).
Proof.
  intros H.
  apply updateEvent_cases in H as [[-> Hf]|(E & HE & Hc & _ & _ & -> & ->)].
  { split; [done|]. split; [done|]. congruence. }
  cbn. split; [done|]. split; [intros e Hne; by rewrite lookup_insert_ne|].
  intros _ Hs Hcr Hcn Ha Hac Hm.
  exists E. eexists. split; [done|]. rewrite lookup_insert_eq. split; [done|].
  cbn. rewrite Hs, Hcr, Hcn, Ha, Hac, Hm. cbn. by repeat split.
Qed.

Lemma update_scope_witness :
  users (updateEvent utcEnv alice 1 newTitle meetupDb).1 = users meetupDb.
Proof.
  exact (proj1 (update_scope utcEnv alice 1 newTitle meetupDb
                  (updateEvent utcEnv alice 1 newTitle meetupDb).1
                  (updateEvent utcEnv alice 1 newTitle meetupDb).2
                  (surjective_pairing _))).
Defined.

(** X11.  The update route has no check of the category, the schema has: the
    creator's update with a category outside the six, and a body that is
    fine otherwise, is answered with status 500 and changes nothing, where
    the creation route answers 400 to the same category. *)
Theorem update_category_unchecked env actor id newId body cbody db E c :
  events db !! id = Some E ->
  creator E = actor_id actor ->
  updateErrors env body = [] ->
  u_category body = Some c ->
  isIn categories c = false ->
  c_category cbody = Some c ->
  updateEvent env actor id body db = (db, Fail 500 "Failed to update event")
  /\ createEvent env actor newId cbody db = (db, ValidationError).
Proof.
  intros HE Hc Herr Hcat Hbad Hccat. split.
  - unfold updateEvent, findByIdAndUpdate. rewrite Herr, HE. cbn.
    apply Z.eqb_eq in Hc. rewrite Hc. cbn.
    replace (updateValid env (sanitizeUpdate body)) with false; [done|].
    symmetry. unfold updateValid.
    replace (u_category (sanitizeUpdate body)) with (Some c) by (symmetry; exact Hcat).
    cbn [from_option]. unfold valid_category. rewrite Hbad, andb_false_r. reflexivity.
  - unfold createEvent.
    replace (isEmpty (createErrors env cbody)) with false; [done|].
    unfold createErrors, check_category_opt. rewrite Hccat, Hbad.
    destruct (check_text 3 100 _ _ ++ check_text 10 1000 _ _ ++ check_text 3 200 _ _
              ++ check_date env _ ++ _) eqn:Happ; [|done].
    repeat (apply app_eq_nil in Happ as [_ Happ]). discriminate.
Qed.

Lemma update_category_unchecked_witness :
  updateEvent utcEnv alice 1 partyCategory meetupDb
  = (meetupDb, Fail 500 "Failed to update event").
Proof.
  exact (proj1 (update_category_unchecked utcEnv alice 1 2 partyCategory
                  (mkCreateBody None None None None (Some "party"%string))
                  meetupDb meetup "party" eq_refl eq_refl eq_refl eq_refl eq_refl eq_refl)).
Defined.

(** ** Creating *)

Lemma rtrim_rtrim s : rtrim (rtrim s) = rtrim s.
Proof.
  induction s as [|c rest IH]; [reflexivity|]. cbn.
  destruct (rtrim rest) as [|a r] eqn:Hr.
  - destruct (is_space c) eqn:Hc; [reflexivity|]. cbn. by rewrite Hc.
  - change (rtrim (String c (String a r))) with
      (match rtrim (String a r) with
       | EmptyString => if is_space c then EmptyString else String c EmptyString
       | String a' r' => String c (String a' r')
       end).
    by rewrite IH.
Qed.

Lemma ltrim_head s :
  ltrim s = EmptyString \/ exists c rest, ltrim s = String c rest /\ is_space c = false.
Proof.
  induction s as [|c rest IH]; [by left|]. cbn.
  destruct (is_space c) eqn:Hc; [exact IH|]. right. eauto.
Qed.

Lemma trim_trim s : trim (trim s) = trim s.
Proof.
  unfold trim.
  assert (Hl : ltrim (rtrim (ltrim s)) = rtrim (ltrim s)).
  { destruct (ltrim_head s) as [->|(c & rest & -> & Hc)]; [reflexivity|].
    cbn. destruct (rtrim rest); rewrite ?Hc; cbn; by rewrite Hc. }
  by rewrite Hl, rtrim_rtrim.
Qed.

Lemma isLength_nonempty lo hi s : 0 < lo -> isLength lo hi s = true -> nonempty s = true.
Proof.
  unfold isLength, nonempty, strlen. intros Hlo H.
  apply andb_true_iff in H as [H _]. apply Z.leb_le in H.
  destruct s; [cbn in H; lia|reflexivity].
Qed.

Lemma schemaValid_past env e : dateTime e <= now env -> schemaValid env e = false.
Proof.
  intros Hpast. unfold schemaValid, valid_dateTime.
  replace (now env <? dateTime e) with false by (symmetry; apply Z.ltb_ge; exact Hpast).
  rewrite !andb_false_r. reflexivity.
Qed.

(** X12.  On ASCII text, a creation whose body passes the route's
    validation with a date that [new Date] parses, under a fresh id and for
    a user whose name is not blank, stores exactly this event: the trimmed
    title, description and location, the date given, the caller as creator,
    no attendees, no capacity, status [upcoming], and the category given or
    else [other]; the date is after the current time and the event passes
    its schema.  The date of a body that passes the validation is either
    such a date or a string that [isISO8601] accepts and [new Date] does not
    parse; the latter is answered 500, and nothing is stored, when the cast
    to a [Date] fails or gives a date that is not in the future.  A body
    that fails the validation is answered 400 and nothing is stored. *)
Theorem create_outcome env actor newId body db :
  (createErrors env body = [] ->
   events db !! newId = None ->
   trim (actor_name actor) <> ""%string ->
   isAscii (actor_name actor) = true ->
   isAscii (default ""%string (c_title body)) = true ->
   isAscii (default ""%string (c_description body)) = true ->
   isAscii (default ""%string (c_location body)) = true ->
   forall t, c_dateTime body = Some (DateIso t) ->
   exists E,
     now env < t
     /\ E = mkEvent (trim (default ""%string (c_title body)))
                    (trim (actor_name actor)) (actor_id actor)
                    (trim (default ""%string (c_description body)))
                    (trim (default ""%string (c_location body)))
                    t 0 [] None "upcoming"
                    (default "other"%string (c_category body))
     /\ schemaValid env E = true
     /\ createEvent env actor newId body db
        = (pushCreated (actor_id actor) newId
             (set_events (<[newId := E]> (events db)) db),
           Done 201 "Event created successfully" (Some E)))
  /\ (createErrors env body = [] ->
      (exists t, c_dateTime body = Some (DateIso t))
      \/ (exists cast, c_dateTime body = Some (DateIsoUnparsed cast)))
  /\ (createErrors env body = [] ->
      forall cast, c_dateTime body = Some (DateIsoUnparsed cast) ->
      (forall t, cast = Some t -> t <= now env) ->
      createEvent env actor newId body db = (db, Fail 500 "Failed to create event"))
  /\ (createErrors env body <> [] ->
      createEvent env actor newId body db = (db, ValidationError)).
Proof.
  split; [|split; [|split]].
  - intros Herr Hfresh Hname _ _ _ _ t Hdt. pose proof Herr as Herr0. unfold createErrors in Herr.
    apply app_eq_nil in Herr as [Ht Herr]. apply app_eq_nil in Herr as [Hd Herr].
    apply app_eq_nil in Herr as [Hl Herr]. apply app_eq_nil in Herr as [Hdate Hcat].
    unfold check_text in Ht, Hd, Hl.
    destruct (isLength 3 100 _) eqn:Ht'; [|discriminate].
    destruct (isLength 10 1000 _) eqn:Hd'; [|discriminate].
    destruct (isLength 3 200 _) eqn:Hl'; [|discriminate].
    unfold check_date in Hdate. rewrite Hdt in Hdate. cbn in Hdate.
    destruct (t <=? now env) eqn:Hfut; [discriminate|]. apply Z.leb_gt in Hfut.
    assert (Hcat' : valid_category (default "other"%string (c_category body)) = true
                    /\ (match c_category body with
                        | Some c => if nonempty c then c else "other"%string
                        | None => "other"%string
                        end) = default "other"%string (c_category body)).
    { unfold check_category_opt in Hcat. destruct (c_category body) as [c|]; [|done].
      destruct (isIn categories c) eqn:Hin; [|discriminate]. cbn. split; [exact Hin|].
      destruct c; [discriminate Hin|reflexivity]. }
    destruct Hcat' as [Hvc Hceq].
    eexists. split; [exact Hfut|]. split; [reflexivity|].
    assert (Hnew : newEvent actor body t
                   = mkEvent (trim (default ""%string (c_title body)))
                             (trim (actor_name actor)) (actor_id actor)
                             (trim (default ""%string (c_description body)))
                             (trim (default ""%string (c_location body)))
                             t 0 [] None "upcoming"
                             (default "other"%string (c_category body))).
    { unfold newEvent. rewrite Hceq.
      destruct (c_title body), (c_description body), (c_location body); cbn -[trim];
        by rewrite ?trim_trim. }
    assert (Hvalid : schemaValid env (newEvent actor body t) = true).
    { rewrite Hnew. unfold schemaValid. cbn [title creatorName creator description location
        dateTime attendeeCount attendees maxAttendees status category].
      unfold valid_title, valid_description, valid_location, valid_creatorName, valid_dateTime.
      rewrite Ht', Hd', Hl', Hvc.
      rewrite (isLength_nonempty 3 100 _ ltac:(lia) Ht').
      rewrite (isLength_nonempty 10 1000 _ ltac:(lia) Hd').
      rewrite (isLength_nonempty 3 200 _ ltac:(lia) Hl').
      replace (now env <? t) with true by (symmetry; by apply Z.ltb_lt).
      replace (nonempty (trim (actor_name actor))) with true; [reflexivity|].
      unfold nonempty. symmetry. apply negb_true_iff, String.eqb_neq. exact Hname. }
    split; [by rewrite <- Hnew|].
    unfold createEvent, saveNew, save.
    rewrite Herr0, Hdt. cbn [isEmpty negb mbind option_bind castString].
    rewrite Hfresh, Hvalid, Hnew.
    cbn. by rewrite lookup_insert_eq.
  - intros Herr. unfold createErrors in Herr.
    apply app_eq_nil in Herr as [_ Herr]. apply app_eq_nil in Herr as [_ Herr].
    apply app_eq_nil in Herr as [_ Herr]. apply app_eq_nil in Herr as [Hdate _].
    unfold check_date in Hdate.
    destruct (c_dateTime body) as [[t|raw|cast|t]|]; cbn in Hdate; try discriminate.
    + left. by exists t.
    + right. by exists cast.
  - intros Herr cast Hdt Hcast. unfold createEvent, saveNew, save.
    rewrite Herr, Hdt. cbn [isEmpty negb mbind option_bind castString].
    destruct cast as [t|]; [|reflexivity].
    destruct (events db !! newId); [reflexivity|].
    rewrite (schemaValid_past env (newEvent actor body t)); [reflexivity|].
    cbn. by apply Hcast.
  - intros Herr. unfold createEvent.
    destruct (createErrors env body); [done|reflexivity].
Qed.

Lemma create_outcome_witness :
  exists E, (createEvent utcEnv alice 2 launchParty meetupDb).2
            = Done 201 "Event created successfully" (Some E)
    /\ category E = "other"%string /\ status E = "upcoming"%string.
Proof.
  destruct (proj1 (create_outcome utcEnv alice 2 launchParty meetupDb) eq_refl eq_refl
              ltac:(discriminate) eq_refl eq_refl eq_refl eq_refl (noon + oneDay) eq_refl)
    as (E & _ & HE & _ & Hc).
  exists E. rewrite Hc. split; [reflexivity|]. rewrite HE. split; reflexivity.
Defined.

(** ** The other date filters *)

(** X13.  With [dateFilter=today] the window is the current day in the
    server's local time: it starts at local midnight, lasts 24 hours and
    holds the current time. *)
Theorem today_window env :
  let start := todayOf env in
  dateBucket env "today" = Some (GteLt start (start + Date.msPerDay))
  /\ Date.TimeWithinDay (LocalTime (localTZA env) start) = 0
  /\ start <= now env < start + Date.msPerDay.
Proof.
  intros start. split; [|split].
  - unfold dateBucket. change (String.eqb "today" "today") with true.
    cbv beta iota zeta. fold start. unfold start. rewrite todayOf_midnight.
    rewrite setDate_midnight. do 2 f_equal. unfold Date.msPerDay. lia.
  - unfold start. rewrite todayOf_midnight. unfold LocalTime, Date.TimeWithinDay.
    match goal with |- (?k * _ - ?z + ?z) mod _ = 0 =>
      replace (k * Date.msPerDay - z + z) with (k * Date.msPerDay) by lia end.
    apply Z.mod_mul. discriminate.
  - unfold start. rewrite todayOf_midnight. unfold Date.Day, Date.msPerDay.
    pose proof (Z.div_mod (now env + localTZA env) 86400000 ltac:(lia)).
    pose proof (Z.mod_pos_bound (now env + localTZA env) 86400000 ltac:(lia)). lia.
Qed.

Lemma dateBucket_last_week env :
  dateBucket env "last_week"
  = Some (GteLt (localWeekStart env - 7 * Date.msPerDay) (localWeekStart env)).
Proof.
  unfold dateBucket.
  change (String.eqb "last_week" "today") with false.
  change (String.eqb "last_week" "current_week") with false.
  change (String.eqb "last_week" "last_week") with true.
  cbv beta iota zeta. rewrite todayOf_midnight.
  set (d := Date.Day (now env + localTZA env)).
  set (tza := localTZA env).
  replace (getDate tza (d * Date.msPerDay - tza) - getDay tza (d * Date.msPerDay - tza) - 7)
    with (getDate tza (d * Date.msPerDay - tza) + (- Date.WeekDayOfDay d - 7))
    by (rewrite getDay_midnight; lia).
  rewrite setDate_midnight, setDate_midnight.
  unfold localWeekStart. subst d tza.
  generalize (Date.WeekDayOfDay (Date.Day (now env + localTZA env))).
  generalize (Date.Day (now env + localTZA env)). intros d w.
  unfold Date.msPerDay. apply f_equal. apply f_equal2; lia.
Qed.

(** X14.  On a server whose local time is a fixed offset from UTC, the
    window of [last_week] is the seven days that end where the window of
    [current_week] starts: an instant is in at most one of the two, and in
    one of them exactly when it lies in the fourteen days that start a week
    before the current week. *)
Theorem last_week_window env :
  exists last this,
    dateBucket env "last_week" = Some last
    /\ dateBucket env "current_week" = Some this
    /\ last = GteLt (localWeekStart env - 7 * Date.msPerDay) (localWeekStart env)
    /\ (forall t, ~ (dateMatches last t = true /\ dateMatches this t = true))
    /\ (forall t, dateMatches last t = true \/ dateMatches this t = true
                  <-> localWeekStart env - 7 * Date.msPerDay <= t
                      < localWeekStart env + 7 * Date.msPerDay).
Proof.
  eexists _, _. split; [apply dateBucket_last_week|].
  split; [apply dateBucket_current_week|]. split; [reflexivity|]. unfold Date.msPerDay.
  split; intros t; cbn [dateMatches];
    rewrite !andb_true_iff, !Z.leb_le, !Z.ltb_lt; lia.
Qed.

Lemma dateBucket_other env f :
  f <> "today"%string -> f <> "current_week"%string -> f <> "last_week"%string ->
  f <> "current_month"%string -> f <> "last_month"%string ->
  dateBucket env f = None.
Proof.
  intros H1 H2 H3 H4 H5. unfold dateBucket.
  apply String.eqb_neq in H1, H2, H3, H4, H5. by rewrite H1, H2, H3, H4, H5.
Qed.

(** X15.  A [dateFilter] that is none of the five known names puts no
    condition on the date: the reply is the reply to the same request
    without the filter. *)
Theorem unknown_dateFilter_ignored env q db f :
  q_dateFilter q = Some f ->
  f <> "today"%string -> f <> "current_week"%string -> f <> "last_week"%string ->
  f <> "current_month"%string -> f <> "last_month"%string ->
  listEvents env q db
  = listEvents env (mkListQuery (q_search q) None (q_startDate q) (q_endDate q)
                                (q_page q) (q_limit q)) db.
Proof.
  intros Hf H1 H2 H3 H4 H5.
  assert (Hb : buildQuery env q
               = buildQuery env (mkListQuery (q_search q) None (q_startDate q) (q_endDate q)
                                             (q_page q) (q_limit q))).
  { unfold buildQuery. cbn [q_search q_dateFilter q_startDate q_endDate].
    rewrite Hf, (dateBucket_other env f H1 H2 H3 H4 H5).
    by destruct (nonempty f). }
  unfold listEvents. rewrite Hb. reflexivity.
Qed.

Lemma unknown_dateFilter_ignored_witness :
  listEvents utcEnv nextDay manyDb = listEvents utcEnv noQuery manyDb.
Proof.
  refine (unknown_dateFilter_ignored utcEnv nextDay manyDb "tomorrow" eq_refl _ _ _ _ _);
    discriminate.
Defined.



(** ** The month filters *)

Lemma year_end doe :
  0 <= doe < 146097 ->
  let yoe := (doe - doe / 1460 + doe / 36524 - doe / 146096) / 365 in
  (yoe < 399 -> doe < (yoe + 1) * 365 + (yoe + 1) / 4 - (yoe + 1) / 100).
Proof.
  intros H. cbv zeta. Z.to_euclidean_division_equations. lia.
Qed.

Lemma marchFirst_era era yoe :
  0 <= yoe <= 399 ->
  marchFirst (yoe + era * 400) = era * 146097 + yoe * 365 + yoe / 4 - yoe / 100 - 719468.
Proof.
  intros H. unfold marchFirst. Z.to_euclidean_division_equations. lia.
Qed.

Lemma days_from_civil_march y m d :
  1 <= m <= 12 ->
  Date.days_from_civil y m d
  = marchFirst (if m <=? 2 then y - 1 else y)
    + (153 * (if 2 <? m then m - 3 else m + 9) + 2) / 5 + d - 1.
Proof.
  intros Hm. unfold Date.days_from_civil. cbv zeta.
  set (y' := if m <=? 2 then y - 1 else y).
  set (mp := if 2 <? m then m - 3 else m + 9).
  pose proof (Z.mod_pos_bound y' 400 ltac:(lia)) as Hb.
  pose proof (Z.div_mod y' 400 ltac:(lia)) as Hdm.
  assert (Hyoe : y' - y' / 400 * 400 = y' mod 400) by lia.
  rewrite Hyoe.
  pose proof (marchFirst_era (y' / 400) (y' mod 400) ltac:(lia)) as Hera.
  replace (y' mod 400 + y' / 400 * 400) with y' in Hera by lia.
  rewrite Hera. lia.
Qed.

Lemma civil_repr z :
  exists yy mp doy,
    0 <= mp <= 11 /\ 153 * mp <= 5 * doy + 2 < 153 * mp + 153
    /\ z = marchFirst yy + doy /\ z < marchFirst (yy + 1)
    /\ Date.civil_from_days z
       = (if mp <? 10 then yy else yy + 1, if mp <? 10 then mp + 3 else mp - 9,
          doy - (153 * mp + 2) / 5 + 1).
Proof.
  unfold Date.civil_from_days.
  set (z' := z + 719468).
  set (era := z' / 146097).
  set (doe := z' - era * 146097).
  assert (Hdoe : 0 <= doe < 146097).
  { subst doe era. pose proof (Z.mod_pos_bound z' 146097 ltac:(lia)).
    pose proof (Z.div_mod z' 146097 ltac:(lia)). lia. }
  pose proof (year_of_era_bounds doe Hdoe) as Hb. cbv zeta in Hb.
  pose proof (year_end doe Hdoe) as Hend. cbv zeta in Hend.
  set (yoe := (doe - doe / 1460 + doe / 36524 - doe / 146096) / 365) in *.
  set (doy := doe - (365 * yoe + yoe / 4 - yoe / 100)) in *.
  set (mp := (5 * doy + 2) / 153).
  assert (Hmp : 0 <= mp <= 11 /\ 153 * mp <= 5 * doy + 2 < 153 * mp + 153).
  { subst mp. destruct Hb as [_ Hd]. Z.to_euclidean_division_equations. lia. }
  assert (Hz : z = era * 146097 + doe - 719468) by (subst doe z'; lia).
  assert (Hdoy : doe = 365 * yoe + yoe / 4 - yoe / 100 + doy) by (subst doy; lia).
  clearbody mp doy yoe doe era. clear z'.
  destruct Hb as [Hyoe Hdoyb]. destruct Hmp as [Hmp Hmpd].
  exists (yoe + era * 400), mp, doy.
  split; [exact Hmp|]. split; [exact Hmpd|].
  split; [rewrite (marchFirst_era era yoe Hyoe); lia|]. split.
  - destruct (Z.eq_dec yoe 399) as [->|Hne].
    + replace (399 + era * 400 + 1) with (0 + (era + 1) * 400) by lia.
      rewrite (marchFirst_era (era + 1) 0 ltac:(lia)). clear Hend. change (0 / 4) with 0. change (0 / 100) with 0. lia.
    + replace (yoe + era * 400 + 1) with ((yoe + 1) + era * 400) by lia.
      rewrite (marchFirst_era era (yoe + 1) ltac:(lia)).
      specialize (Hend ltac:(lia)). lia.
  - cbv zeta. destruct (mp <? 10) eqn:Hlt.
    + apply Z.ltb_lt in Hlt.
      replace (mp + 3 <=? 2) with false by (symmetry; apply Z.leb_gt; lia). reflexivity.
    + apply Z.ltb_ge in Hlt.
      replace (mp - 9 <=? 2) with true by (symmetry; apply Z.leb_le; lia). reflexivity.
Qed.

Lemma marchFirst_mono a b : a <= b -> marchFirst a <= marchFirst b.
Proof. intros H. unfold marchFirst. Z.to_euclidean_division_equations. lia. Qed.

Lemma marchFirst_next y : marchFirst y + 365 <= marchFirst (y + 1) <= marchFirst y + 366.
Proof. unfold marchFirst. Z.to_euclidean_division_equations. lia. Qed.

(** The day [doy] days after 1 March of year [yy], within month [mp]
    counted from March, has the civil date the algorithm gives. *)
Lemma civil_from_march yy mp doy :
  0 <= mp <= 11 -> 153 * mp <= 5 * doy + 2 < 153 * mp + 153 ->
  marchFirst yy + doy < marchFirst (yy + 1) ->
  Date.civil_from_days (marchFirst yy + doy)
  = (if mp <? 10 then yy else yy + 1, if mp <? 10 then mp + 3 else mp - 9,
     doy - (153 * mp + 2) / 5 + 1).
Proof.
  intros Hmp Hd Hlt.
  destruct (civil_repr (marchFirst yy + doy)) as (yy' & mp' & doy' & Hmp' & Hd' & Hz & Hlt' & ->).
  assert (Hyy : yy' = yy).
  { destruct (Z.lt_trichotomy yy' yy) as [H|[H|H]]; [|exact H|].
    - pose proof (marchFirst_mono (yy' + 1) yy ltac:(lia)). lia.
    - pose proof (marchFirst_mono (yy + 1) yy' ltac:(lia)). lia. }
  subst yy'. assert (doy' = doy) by lia. subst doy'.
  assert (mp' = mp) by lia. subst mp'. reflexivity.
Qed.

Ltac calc t := let v := eval vm_compute in t in change t with v.
Ltac closed_in yy a := lazymatch a with context [yy] => fail | _ => idtac end.
Ltac calc_closed yy :=
  repeat (first
    [ match goal with
      | |- context [?a / ?b] => closed_in yy a; calc (a / b)
      | |- context [?a mod ?b] => closed_in yy a; calc (a mod b)
      | |- context [?a <=? ?b] => closed_in yy a; calc (a <=? b)
      | |- context [?a <? ?b] => closed_in yy a; calc (a <? b)
      end
    | progress cbv iota ]).

(** The day number of the first of a month, [k] months away from month
    [mp] (counted from March) of the year that starts in March [yy]. *)
Lemma MakeDay_march yy mp k :
  0 <= mp <= 11 -> -1 <= k <= 1 ->
  Date.MakeDay (if mp <? 10 then yy else yy + 1)
               ((if mp <? 10 then mp + 3 else mp - 9) - 1 + k) 1
  = marchFirst (yy + (mp + k) / 12) + (153 * ((mp + k) mod 12) + 2) / 5.
Proof.
  intros Hmp Hk.
  assert (Hm : mp = 0 \/ mp = 1 \/ mp = 2 \/ mp = 3 \/ mp = 4 \/ mp = 5 \/ mp = 6
               \/ mp = 7 \/ mp = 8 \/ mp = 9 \/ mp = 10 \/ mp = 11) by lia.
  assert (Hk' : k = -1 \/ k = 0 \/ k = 1) by lia.
  unfold Date.MakeDay. cbv zeta.
  repeat destruct Hm as [Hm|Hm]; subst mp;
    repeat destruct Hk' as [Hk'|Hk']; subst k;
    calc_closed yy;
    (rewrite days_from_civil_march by lia); calc_closed yy;
    repeat match goal with
      | |- context [marchFirst ?a] =>
          lazymatch a with
          | yy => fail
          | yy + 1 => fail
          | yy + -1 => fail
          | _ => first [ replace a with yy by lia
                       | replace a with (yy + 1) by lia
                       | replace a with (yy + -1) by lia ]
          end
      end; lia.
Qed.

(** The first of the month [j] months after March of year [yy], for [j]
    from -1 (February before) to 12 (March after). *)
Lemma month_start_first yy mp :
  0 <= mp <= 11 ->
  Date.DateFromDay (marchFirst yy + (153 * mp + 2) / 5) = 1.
Proof.
  intros Hmp. unfold Date.DateFromDay.
  rewrite (civil_from_march yy mp ((153 * mp + 2) / 5) Hmp).
  - cbn [snd]. lia.
  - Z.to_euclidean_division_equations. lia.
  - pose proof (marchFirst_next yy). Z.to_euclidean_division_equations. lia.
Qed.

Lemma month_start_step yy j :
  -1 <= j <= 11 ->
  28 <= marchFirst (yy + (j + 1) / 12) + (153 * ((j + 1) mod 12) + 2) / 5
        - (marchFirst (yy + j / 12) + (153 * (j mod 12) + 2) / 5) <= 31.
Proof.
  intros Hj.
  assert (H : j = -1 \/ j = 0 \/ j = 1 \/ j = 2 \/ j = 3 \/ j = 4 \/ j = 5 \/ j = 6
              \/ j = 7 \/ j = 8 \/ j = 9 \/ j = 10 \/ j = 11) by lia.
  pose proof (marchFirst_next yy) as Hn.
  pose proof (marchFirst_next (yy + -1)) as Hp.
  replace (yy + -1 + 1) with yy in Hp by lia.
  repeat destruct H as [H|H]; subst j; calc_closed yy;
    repeat match goal with
      | |- context [marchFirst ?a] =>
          lazymatch a with
          | yy => fail
          | yy + 1 => fail
          | yy + -1 => fail
          | _ => first [ replace a with yy by lia
                       | replace a with (yy + 1) by lia
                       | replace a with (yy + -1) by lia ]
          end
      end; lia.
Qed.

(** The bounds of the two month windows, as day numbers in local time. *)
Lemma month_buckets env :
  let tza := localTZA env in
  exists l s e,
    dateBucket env "last_month"
    = Some (GteLt (l * Date.msPerDay - tza) (s * Date.msPerDay - tza))
    /\ dateBucket env "current_month"
       = Some (GteLt (s * Date.msPerDay - tza) (e * Date.msPerDay - tza))
    /\ Date.DateFromDay l = 1 /\ Date.DateFromDay s = 1 /\ Date.DateFromDay e = 1
    /\ s <= Date.Day (now env + tza) < e
    /\ 28 <= s - l <= 31 /\ 28 <= e - s <= 31.
Proof.
  intros tza. set (z := Date.Day (now env + tza)).
  destruct (civil_repr z) as (yy & mp & doy & Hmp & Hd & Hz & Hlt & Hc).
  pose proof (MakeDay_march yy mp (-1) Hmp ltac:(lia)) as Hl.
  pose proof (MakeDay_march yy mp 0 Hmp ltac:(lia)) as Hs.
  pose proof (MakeDay_march yy mp 1 Hmp ltac:(lia)) as He.
  assert (Hy : getFullYear tza (todayOf env) = if mp <? 10 then yy else yy + 1).
  { rewrite todayOf_midnight. unfold getFullYear. rewrite Day_of_midnight.
    fold tza z. unfold Date.YearFromDay. by rewrite Hc. }
  assert (Hm : getMonth tza (todayOf env) = (if mp <? 10 then mp + 3 else mp - 9) - 1).
  { rewrite todayOf_midnight. unfold getMonth. rewrite Day_of_midnight.
    fold tza z. unfold Date.MonthFromDay. by rewrite Hc. }
  exists (marchFirst (yy + (mp + -1) / 12) + (153 * ((mp + -1) mod 12) + 2) / 5),
         (marchFirst (yy + (mp + 0) / 12) + (153 * ((mp + 0) mod 12) + 2) / 5),
         (marchFirst (yy + (mp + 1) / 12) + (153 * ((mp + 1) mod 12) + 2) / 5).
  split; [|split].
  - unfold dateBucket.
    change (String.eqb "last_month" "today") with false.
    change (String.eqb "last_month" "current_week") with false.
    change (String.eqb "last_month" "last_week") with false.
    change (String.eqb "last_month" "current_month") with false.
    change (String.eqb "last_month" "last_month") with true.
    cbv beta iota zeta. fold tza. rewrite Hy, Hm. unfold newDate, UTC, Date.MakeDate.
    replace ((if mp <? 10 then mp + 3 else mp - 9) - 1 - 1)
      with ((if mp <? 10 then mp + 3 else mp - 9) - 1 + -1) by lia.
    replace ((if mp <? 10 then mp + 3 else mp - 9) - 1)
      with ((if mp <? 10 then mp + 3 else mp - 9) - 1 + 0) at 2 by lia.
    rewrite Hl, Hs. do 2 f_equal; lia.
  - unfold dateBucket.
    change (String.eqb "current_month" "today") with false.
    change (String.eqb "current_month" "current_week") with false.
    change (String.eqb "current_month" "last_week") with false.
    change (String.eqb "current_month" "current_month") with true.
    cbv beta iota zeta. fold tza. rewrite Hy, Hm. unfold newDate, UTC, Date.MakeDate.
    replace ((if mp <? 10 then mp + 3 else mp - 9) - 1)
      with ((if mp <? 10 then mp + 3 else mp - 9) - 1 + 0) at 1 by lia.
    rewrite Hs, He. do 2 f_equal; lia.
  - assert (Hq : forall j, 0 <= j mod 12 <= 11)
      by (intros j; pose proof (Z.mod_pos_bound j 12 ltac:(lia)); lia).
    split; [apply month_start_first, Hq|].
    split; [apply month_start_first, Hq|].
    split; [apply month_start_first, Hq|].
    pose proof (month_start_step yy (mp + -1) ltac:(lia)) as H1.
    replace (mp + -1 + 1) with (mp + 0) in H1 by lia.
    pose proof (month_start_step yy (mp + 0) ltac:(lia)) as H2.
    replace (mp + 0 + 1) with (mp + 1) in H2 by lia.
    split; [|split; [exact H1|exact H2]].
    rewrite (Z.add_0_r mp), (Z.div_small mp 12), (Z.mod_small mp 12), (Z.add_0_r yy) by lia.
    split; [rewrite Hz; Z.to_euclidean_division_equations; lia|].
    destruct (Z.eq_dec mp 11) as [->|Hne].
    + calc_closed yy. lia.
    + replace ((mp + 1) / 12) with 0 by (symmetry; apply Z.div_small; lia).
      replace ((mp + 1) mod 12) with (mp + 1) by (symmetry; apply Z.mod_small; lia).
      replace (yy + 0) with yy by lia. rewrite Hz.
      Z.to_euclidean_division_equations. lia.
Qed.

Lemma midnight_first tza d :
  Date.DateFromDay d = 1 -> firstOfMonth tza (d * Date.msPerDay - tza).
Proof.
  intros H. split.
  - unfold getDate. by rewrite Day_of_midnight.
  - unfold LocalTime, Date.TimeWithinDay.
    replace (d * Date.msPerDay - tza + tza) with (d * Date.msPerDay) by lia.
    apply Z.mod_mul. discriminate.
Qed.

(** X17.  With [dateFilter=current_month] the window runs from the local
    midnight that opens the current month to the local midnight that opens
    the next one, December carrying over into January: it holds the
    current time and is 28 to 31 days long. *)
Theorem current_month_window env :
  exists start stop,
    dateBucket env "current_month" = Some (GteLt start stop)
    /\ firstOfMonth (localTZA env) start /\ firstOfMonth (localTZA env) stop
    /\ start <= now env < stop
    /\ 28 * Date.msPerDay <= stop - start <= 31 * Date.msPerDay.
Proof.
  destruct (month_buckets env) as (l & s & e & _ & Hc & _ & Hs & He & Hz & _ & Hlen).
  eexists _, _. split; [exact Hc|].
  split; [by apply midnight_first|]. split; [by apply midnight_first|].
  unfold Date.Day, Date.msPerDay in *.
  pose proof (Z.div_mod (now env + localTZA env) 86400000 ltac:(lia)).
  pose proof (Z.mod_pos_bound (now env + localTZA env) 86400000 ltac:(lia)). lia.
Qed.

(** X18.  On a server whose local time is a fixed offset from UTC, the
    window of [last_month] ends where the window of [current_month] starts,
    and starts at the local midnight that opens the month before, January
    carrying back into December: it is 28 to 31 days long and no instant is
    in both windows. *)
Theorem last_month_window env :
  exists lastStart start stop,
    dateBucket env "last_month" = Some (GteLt lastStart start)
    /\ dateBucket env "current_month" = Some (GteLt start stop)
    /\ firstOfMonth (localTZA env) lastStart
    /\ 28 * Date.msPerDay <= start - lastStart <= 31 * Date.msPerDay
    /\ (forall t, ~ (dateMatches (GteLt lastStart start) t = true
                     /\ dateMatches (GteLt start stop) t = true)).
Proof.
  destruct (month_buckets env) as (l & s & e & Hl & Hc & Hl1 & _ & _ & _ & Hlen & _).
  eexists _, _, _. split; [exact Hl|]. split; [exact Hc|].
  split; [by apply midnight_first|]. split; [unfold Date.msPerDay; lia|].
  intros t. cbn [dateMatches]. rewrite !andb_true_iff, !Z.leb_le, !Z.ltb_lt. lia.
Qed.

(** ** Pages *)

(** X19.  When no two matching events have the same [dateTime], so that the
    sort has one possible order, and the database accepts the search
    pattern: two requests that differ only in the page, [p] and [p + 1]
    (with [(p + 1) * l] at most 2^53), are answered with consecutive slices
    of the sorted matches: put one after the other, their rows are the
    [2 * l] rows that follow the first [(p - 1) * l], none repeated and none
    left out, and the two replies report the same totals. *)
Theorem consecutive_pages env q db query nextPage p l :
  buildQuery env q = Some query ->
  patternOk env query = true ->
  NoDup (dateTime <$> findAll env query db) ->
  Js.ToNumber (pageOf q) = Js.Fin p ->
  Js.StringToNumber nextPage = Js.Fin (p + 1) ->
  Js.ToNumber (limitOf q) = Js.Fin l ->
  0 < p -> 0 < l -> (p + 1) * l <= Js.maxSafe ->
  let sorted := sortByDateDesc (findAll env query db) in
  (forall order, order ≡ₚ findAll env query db -> Sorted laterFirst order -> order = sorted)
  /\ exists rows rows' pg pg',
       listEvents env q db = Listing rows pg
       /\ listEvents env (mkListQuery (q_search q) (q_dateFilter q) (q_startDate q)
                                      (q_endDate q) (Some nextPage) (q_limit q)) db
          = Listing rows' pg'
       /\ rows ++ rows' = take (Z.to_nat (2 * l)) (drop (Z.to_nat ((p - 1) * l)) sorted)
       /\ total pg' = total pg /\ pages pg' = pages pg.
Proof.
  intros Hq Hpat Hdates Hp Hnext Hl Hp0 Hl0 Hbound sorted.
  split; [intros order; by apply sortByDateDesc_unique|].
  set (q' := mkListQuery _ _ _ _ _ _).
  assert (Hq' : buildQuery env q' = Some query) by exact Hq.
  assert (Hl' : Js.ToNumber (limitOf q') = Js.Fin l) by exact Hl.
  rewrite (listEvents_rows env q db query p l Hq Hpat Hp Hl Hp0 Hl0 ltac:(nia)).
  rewrite (listEvents_rows env q' db query (p + 1) l Hq' Hpat Hnext Hl' ltac:(lia) Hl0 Hbound).
  eexists _, _, _, _. split; [reflexivity|]. split; [reflexivity|].
  split; [|split; reflexivity].
  unfold sorted. generalize (sortByDateDesc (findAll env query db)). intros rows.
  replace (Z.to_nat ((p + 1 - 1) * l)) with (Z.to_nat ((p - 1) * l) + Z.to_nat l)%nat by nia.
  replace (Z.to_nat (2 * l)) with (Z.to_nat l + Z.to_nat l)%nat by lia.
  rewrite <- drop_drop.
  generalize (drop (Z.to_nat ((p - 1) * l)) rows). intros rest.
  apply take_take_drop.
Qed.

Lemma consecutive_pages_witness :
  exists rows rows' pg pg',
    listEvents utcEnv secondPage manyDb = Listing rows pg
    /\ listEvents utcEnv thirdPage manyDb = Listing rows' pg'
    /\ rows ++ rows' = eventAt <$> [15; 14; 13; 12; 11; 10; 9; 8; 7; 6; 5; 4; 3; 2; 1].
Proof.
  destruct (consecutive_pages utcEnv secondPage manyDb (mkFilter None None) "3" 2 10)
    as (_ & rows & rows' & pg & pg' & H1 & H2 & H3 & _).
  - reflexivity.
  - reflexivity.
  - apply (bool_decide_unpack _). vm_compute. reflexivity.
  - vm_compute. reflexivity.
  - vm_compute. reflexivity.
  - vm_compute. reflexivity.
  - lia.
  - lia.
  - vm_compute. discriminate.
  - exists rows, rows', pg, pg'. split; [exact H1|]. split; [exact H2|].
    rewrite H3. vm_compute. reflexivity.
Defined.

(** X20.  For a page [p] and a limit [l] that read as positive integers,
    with [p * l] at most 2^53, and a search pattern the database accepts:
    page [p] holds [min l (n - (p - 1) * l)] rows, and none when that is
    negative: whole pages before the last one, the remainder on the last,
    and an empty list, with the same totals, for a page past the end. *)
Theorem page_sizes env q db query p l :
  buildQuery env q = Some query ->
  patternOk env query = true ->
  Js.ToNumber (pageOf q) = Js.Fin p ->
  Js.ToNumber (limitOf q) = Js.Fin l ->
  0 < p -> 0 < l -> p * l <= Js.maxSafe ->
  let n := Z.of_nat (length (findAll env query db)) in
  exists rows pg,
    listEvents env q db = Listing rows pg
    /\ Z.of_nat (length rows) = Z.max 0 (Z.min l (n - (p - 1) * l))
    /\ total pg = n
    /\ (n <= (p - 1) * l -> rows = []).
Proof.
  intros Hq Hpat Hp Hl Hp0 Hl0 Hbound n.
  rewrite (listEvents_rows env q db query p l Hq Hpat Hp Hl Hp0 Hl0 Hbound).
  eexists _, _. split; [reflexivity|].
  assert (Hlen : length (sortByDateDesc (findAll env query db))
                 = length (findAll env query db)).
  { unfold sortByDateDesc. by rewrite merge_sort_Permutation. }
  assert (Hsize : Z.of_nat (length (take (Z.to_nat l)
                     (drop (Z.to_nat ((p - 1) * l)) (sortByDateDesc (findAll env query db)))))
                  = Z.max 0 (Z.min l (n - (p - 1) * l))).
  { rewrite length_take, length_drop, Hlen. unfold n. nia. }
  split; [exact Hsize|]. split; [reflexivity|].
  intros Hpast. apply nil_length_inv. lia.
Qed.

Lemma page_sizes_witness :
  listEvents utcEnv fourthPage manyDb
  = Listing [] (mkPagination (Js.VStr "4") (Js.Fin 3) 25).
Proof.
  destruct (page_sizes utcEnv fourthPage manyDb (mkFilter None None) 4 10)
    as (rows & pg & H & _ & _ & Hempty).
  - reflexivity.
  - reflexivity.
  - vm_compute. reflexivity.
  - vm_compute. reflexivity.
  - lia.
  - lia.
  - vm_compute. discriminate.
  - rewrite H. rewrite Hempty in H |- * by (vm_compute; discriminate).
    rewrite <- H. vm_compute. reflexivity.
Defined.

(** ** The creator's listing *)

#[local] Instance laterFirstDoc_total : Total laterFirstDoc.
Proof. intros a b. unfold laterFirstDoc, laterFirst. lia. Qed.

Lemma elem_of_listCreatedEvents actor db (d : Z * Event) :
  d ∈ listCreatedEvents actor db
  <-> events db !! d.1 = Some d.2 /\ creator d.2 = actor_id actor.
Proof.
  unfold listCreatedEvents. rewrite merge_sort_Permutation.
  rewrite list_elem_of_In, filter_In, <- list_elem_of_In, Z.eqb_eq.
  destruct d as [k E]. by rewrite elem_of_map_to_list.
Qed.

(** X21.  The creator's listing follows the writes: it is sorted, later
    events first; after a successful creation it holds the new event and
    all it held before; after a successful delete by the creator it holds
    what it held before but for the deleted event. *)
Theorem created_listing_follows_writes env actor id newId body db db' r :
  Sorted laterFirstDoc (listCreatedEvents actor db)
  /\ (createEvent env actor newId body db = (db', r) -> succeeded r = true ->
      (exists E, (newId, E) ∈ listCreatedEvents actor db')
      /\ forall d, d ∈ listCreatedEvents actor db -> d ∈ listCreatedEvents actor db')
  /\ (deleteEvent actor id db = (db', r) -> succeeded r = true ->
      forall d, d ∈ listCreatedEvents actor db'
                <-> d ∈ listCreatedEvents actor db /\ d.1 <> id).
Proof.
  split; [apply Sorted_merge_sort, _|]. split.
  - intros H Hok.
    apply createEvent_cases in H as [[_ Hf]|(t & _ & _ & Hfresh & _ & -> & _)]; [congruence|].
    split.
    + eexists. apply elem_of_listCreatedEvents. cbn. rewrite lookup_insert_eq.
      split; reflexivity.
    + intros d. rewrite !elem_of_listCreatedEvents. cbn. intros [Hd Hc].
      split; [|done]. rewrite lookup_insert_ne; [done|].
      intros Heq. rewrite <- Heq in Hd. congruence.
  - intros H Hok d.
    apply deleteEvent_cases in H as [[_ Hf]|(E & _ & _ & -> & _)]; [congruence|].
    rewrite !elem_of_listCreatedEvents. cbn. rewrite lookup_delete_Some.
    split; [intros [[? ?] ?]|intros [[? ?] ?]]; repeat split; congruence.
Qed.

(** ** Joins in any order *)

Lemma joinStep_keeps env r db db' r' :
  joinStep env r db = (db', r') ->
  j_actor r' = j_actor r /\ j_id r' = j_id r
  /\ (forall id a, (exists E, events db !! id = Some E /\ a ∈ attendees E) ->
                   exists E', events db' !! id = Some E' /\ a ∈ attendees E')
  /\ (hasJoined (j_state r) = false -> hasJoined (j_state r') = true ->
      exists E', events db' !! j_id r = Some E' /\ actor_id (j_actor r) ∈ attendees E').
Proof.
  unfold joinStep. intros H.
  destruct (j_state r) as [|loaded| | |reply] eqn:Hst.
  - destruct (events db !! j_id r) as [E|]; [|inversion H; subst; cbn; by eauto 10].
    destruct (includes _ _); [inversion H; subst; cbn; by eauto 10|].
    destruct (isFull E); [inversion H; subst; cbn; by eauto 10|].
    destruct (schemaValid _ _); inversion H; subst; cbn; by eauto 10.
  - unfold writePush in H.
    destruct (events db !! j_id r) as [stored|] eqn:HE;
      [|inversion H; subst; cbn; by eauto 10].
    inversion H; subst; clear H. cbn. split; [done|]. split; [done|]. split.
    + intros id a (E & HE' & Ha). rewrite lookup_insert.
      destruct (decide (j_id r = id)) as [<-|]; [|eauto].
      eexists. split; [done|]. cbn. rewrite HE in HE'. injection HE' as <-.
      apply elem_of_app. by left.
    + intros _ _. rewrite lookup_insert_eq. eexists. split; [done|]. cbn.
      apply elem_of_app. right. by apply list_elem_of_singleton.
  - inversion H; subst. cbn. by eauto 10.
  - inversion H; subst. cbn. by eauto 10.
  - inversion H; subst. rewrite Hst. split; [done|]. split; [done|]. split; [eauto|].
    intros H1 H2. congruence.
Qed.

Lemma stepAt_keeps env i sys : joinsKept sys -> joinsKept (stepAt env i sys).
Proof.
  unfold joinsKept, stepAt. destruct sys as [db reqs]. cbn. intros Hall.
  destruct (reqs !! i) as [r|] eqn:Hr; [|exact Hall].
  destruct (joinStep env r db) as [db' r'] eqn:Hstep. cbn.
  apply joinStep_keeps in Hstep as (Ha & Hid & Hmono & Hnew).
  apply Forall_insert.
  - eapply Forall_impl; [exact Hall|]. cbn. intros x Hx Hj. apply Hmono. by apply Hx.
  - intros Hj. rewrite Ha, Hid.
    destruct (hasJoined (j_state r)) eqn:Hold; [|by apply Hnew].
    apply Hmono. rewrite Forall_forall in Hall. apply Hall; [|done].
    apply list_elem_of_lookup. eauto.
Qed.

Lemma runSchedule_keeps env schedule sys :
  joinsKept sys -> joinsKept (runSchedule env schedule sys).
Proof.
  unfold runSchedule. revert sys.
  induction schedule as [|i rest IH]; intros sys H; [exact H|].
  cbn. apply IH. by apply stepAt_keeps.
Qed.

(** X22.  Whatever the order in which the steps of any number of join
    requests run, a request that is answered with success has its caller
    among the attendees of the stored event at the end: no join that was
    acknowledged is lost to another one. *)
Theorem acknowledged_joins_are_kept env schedule db reqs db' reqs' :
  Forall (fun r => j_state r = JStart) reqs ->
  runSchedule env schedule (db, reqs) = (db', reqs') ->
  forall r reply,
    r ∈ reqs' -> j_state r = JReplied reply -> succeeded reply = true ->
    exists E, events db' !! j_id r = Some E /\ actor_id (j_actor r) ∈ attendees E.
Proof.
  intros Hstart Hrun r reply Hin Hst Hok.
  assert (Hinit : joinsKept (db, reqs)).
  { unfold joinsKept. cbn. eapply Forall_impl; [exact Hstart|].
    cbn. intros x -> Hj. discriminate Hj. }
  pose proof (runSchedule_keeps env schedule _ Hinit) as Hend.
  rewrite Hrun in Hend. unfold joinsKept in Hend. cbn in Hend.
  rewrite Forall_forall in Hend. apply (Hend r Hin). by rewrite Hst.
Qed.

Lemma acknowledged_joins_are_kept_witness :
  exists E, events (runSchedule utcEnv inTurn (lastSeatDb, twoJoins)).1 !! 1 = Some E
    /\ 11 ∈ attendees E.
Proof.
  refine (acknowledged_joins_are_kept utcEnv inTurn lastSeatDb twoJoins
            (runSchedule utcEnv inTurn (lastSeatDb, twoJoins)).1
            (runSchedule utcEnv inTurn (lastSeatDb, twoJoins)).2 _ (surjective_pairing _)
            (mkJoinReq bob 1 (JReplied (Done 200 "Successfully joined the event"
               (events (runSchedule utcEnv inTurn (lastSeatDb, twoJoins)).1 !! 1))))
            _ _ eq_refl eq_refl).
  - repeat constructor.
  - vm_compute. left.
Defined.

(** ** The session reducer *)

(** X23.  From the initial state and through any sequence of actions, a
    session that is not authenticated holds no user, and a session that is
    authenticated holds no error. *)
Theorem session_invariant {UserInfo : Type} (stored : option string)
    (actions : list (Auth.Action UserInfo)) :
  let state := fold_left Auth.authReducer actions (Auth.initialState stored) in
  (Auth.isAuthenticated state = false -> Auth.user state = None)
  /\ (Auth.isAuthenticated state = true -> Auth.error state = None).
Proof.
  cbv zeta.
  assert (Hgen : forall s : Auth.State UserInfo,
            ((Auth.isAuthenticated s = false -> Auth.user s = None)
             /\ (Auth.isAuthenticated s = true -> Auth.error s = None)) ->
            (Auth.isAuthenticated (fold_left Auth.authReducer actions s) = false ->
             Auth.user (fold_left Auth.authReducer actions s) = None)
            /\ (Auth.isAuthenticated (fold_left Auth.authReducer actions s) = true ->
                Auth.error (fold_left Auth.authReducer actions s) = None)).
  { induction actions as [|a rest IH]; intros s Hs; [exact Hs|].
    cbn [fold_left]. apply IH. destruct Hs as [H1 H2].
    destruct a; cbn; split; try done; try tauto. }
  apply Hgen. cbn. split; [done|discriminate].
Qed.

(** ** The creation form and the creation route *)

(** X24.  The form's check never stops what the server would accept: when
    browser and server are in the same time zone and the server's clock is
    not behind the browser's, a form whose posted body passes the creation
    route's validation passes [validateForm]. *)
Theorem form_allows_what_server_accepts env (tza clientNow : Z) form :
  Form.wellFormed (Form.dateTime form) = true ->
  localTZA env = tza ->
  clientNow <= now env ->
  createErrors env (Form.postedBody (localTZA env) form) = [] ->
  Form.validateForm tza clientNow form = Form.Valid.
Proof.
  intros _ Htz Hnow Herr. unfold createErrors, Form.postedBody in Herr.
  cbn [c_title c_description c_location c_dateTime c_category] in Herr.
  apply app_eq_nil in Herr as [Ht Herr]. apply app_eq_nil in Herr as [Hd Herr].
  apply app_eq_nil in Herr as [Hl Herr]. apply app_eq_nil in Herr as [Hdate _].
  unfold check_text in Ht, Hd, Hl. cbn [default from_option id] in Ht, Hd, Hl.
  destruct (isLength 3 100 _) eqn:Ht'; [|discriminate].
  destruct (isLength 10 1000 _) eqn:Hd'; [|discriminate].
  destruct (isLength 3 200 _) eqn:Hl'; [|discriminate].
  unfold Form.validateForm.
  rewrite (isLength_nonempty 3 100 _ ltac:(lia) Ht').
  rewrite (isLength_nonempty 10 1000 _ ltac:(lia) Hd').
  rewrite (isLength_nonempty 3 200 _ ltac:(lia) Hl').
  unfold isLength in Ht', Hd'.
  apply andb_true_iff in Ht' as [Ht' _]. apply andb_true_iff in Hd' as [Hd' _].
  apply Z.leb_le in Ht', Hd'.
  replace (strlen (trim (Form.title form)) <? 3) with false
    by (symmetry; apply Z.ltb_ge; exact Ht').
  replace (strlen (trim (Form.description form)) <? 10) with false
    by (symmetry; apply Z.ltb_ge; exact Hd').
  cbn [negb]. unfold check_date in Hdate. cbn [default from_option id] in Hdate.
  destruct (Form.dateTime form) as [|y mo d h mi]; [discriminate Hdate|].
  cbn [check_date_value] in Hdate. rewrite Htz in Hdate.
  destruct (Form.instantOf tza y mo d h mi <=? now env) eqn:Hle; [discriminate|].
  apply Z.leb_gt in Hle.
  replace (Form.instantOf tza y mo d h mi <=? clientNow) with false
    by (symmetry; apply Z.leb_gt; lia).
  reflexivity.
Qed.

Lemma form_allows_what_server_accepts_witness :
  Form.validateForm 0 noon Form.launchForm = Form.Valid.
Proof.
  refine (form_allows_what_server_accepts utcEnv 0 noon Form.launchForm _ eq_refl _ _).
  - vm_compute. reflexivity.
  - vm_compute. discriminate.
  - vm_compute. reflexivity.
Defined.

Lemma strlen_nonempty s : 1 <= strlen s -> nonempty s = true.
Proof. unfold strlen, nonempty. destruct s; [cbn; lia|reflexivity]. Qed.

(** X25.  The server checks more than the form.  A form with a title of
    3 characters or more, a description of 10 or more, a location that is
    not blank and a date after the browser's clock passes [validateForm];
    it is still answered 400, and nothing is stored, when its trimmed
    location has fewer than 3 characters, when its title, description or
    location is longer than 100, 1000 or 200, or when its category is not
    one of the six. *)
Theorem form_passes_server_refuses env actor newId db (tza clientNow : Z) form y mo d h mi :
  Form.dateTime form = Form.LocalStamp y mo d h mi ->
  Form.wellFormed (Form.dateTime form) = true ->
  3 <= strlen (trim (Form.title form)) ->
  10 <= strlen (trim (Form.description form)) ->
  1 <= strlen (trim (Form.location form)) ->
  clientNow < Form.instantOf tza y mo d h mi ->
  strlen (trim (Form.location form)) < 3
  \/ 100 < strlen (trim (Form.title form))
  \/ 1000 < strlen (trim (Form.description form))
  \/ 200 < strlen (trim (Form.location form))
  \/ isIn categories (Form.category form) = false ->
  Form.validateForm tza clientNow form = Form.Valid
  /\ createEvent env actor newId (Form.postedBody (localTZA env) form) db
     = (db, ValidationError).
Proof.
  intros Hdt _ Ht Hd Hl Hfuture Hbad. split.
  - unfold Form.validateForm.
    assert (Ht1 : 1 <= strlen (trim (Form.title form))) by lia.
    assert (Hd1 : 1 <= strlen (trim (Form.description form))) by lia.
    rewrite (strlen_nonempty _ Ht1), (strlen_nonempty _ Hd1), (strlen_nonempty _ Hl).
    replace (strlen (trim (Form.title form)) <? 3) with false
      by (symmetry; apply Z.ltb_ge; exact Ht).
    replace (strlen (trim (Form.description form)) <? 10) with false
      by (symmetry; apply Z.ltb_ge; exact Hd).
    cbn [negb]. rewrite Hdt.
    replace (Form.instantOf tza y mo d h mi <=? clientNow) with false
      by (symmetry; apply Z.leb_gt; exact Hfuture).
    reflexivity.
  - unfold createEvent.
    replace (isEmpty (createErrors env (Form.postedBody (localTZA env) form))) with false;
      [reflexivity|].
    symmetry. unfold createErrors, Form.postedBody.
    cbn [c_title c_description c_location c_dateTime c_category].
    unfold check_text, check_category_opt, isLength. cbn [default from_option id].
    destruct Hbad as [H|[H|[H|[H|H]]]].
    + replace (3 <=? strlen (trim (Form.location form))) with false
        by (symmetry; apply Z.leb_gt; exact H).
      cbn [andb]. by repeat (destruct (_ && _); cbn).
    + replace (strlen (trim (Form.title form)) <=? 100) with false
        by (symmetry; apply Z.leb_gt; exact H).
      rewrite andb_false_r. reflexivity.
    + replace (strlen (trim (Form.description form)) <=? 1000) with false
        by (symmetry; apply Z.leb_gt; exact H).
      rewrite (andb_false_r (10 <=? _)). by destruct (_ && _).
    + replace (strlen (trim (Form.location form)) <=? 200) with false
        by (symmetry; apply Z.leb_gt; exact H).
      rewrite (andb_false_r (3 <=? strlen (trim (Form.location form)))).
      by repeat (destruct (_ && _); cbn).
    + rewrite H.
      destruct (_ ++ _ ++ _ ++ _ ++ _) eqn:Happ; [|reflexivity].
      repeat (apply app_eq_nil in Happ as [_ Happ]). discriminate.
Qed.

Lemma form_passes_server_refuses_witness :
  Form.validateForm 0 noon Form.shortLocation = Form.Valid
  /\ createEvent utcEnv alice 2 (Form.postedBody 0 Form.shortLocation) meetupDb
     = (meetupDb, ValidationError).
Proof.
  refine (form_passes_server_refuses utcEnv alice 2 meetupDb 0 noon Form.shortLocation
            2024 3 15 12 0 eq_refl _ _ _ _ _ _).
  - vm_compute. reflexivity.
  - vm_compute. discriminate.
  - vm_compute. discriminate.
  - vm_compute. discriminate.
  - vm_compute. reflexivity.
  - left. vm_compute. reflexivity.
Defined.

(** ** The joined events on the events page *)

(** X26.  On the events of a [GET /] reply, where the attendees are id
    strings, the test [attendee._id === user?.id] does not look at who
    attends: for a user with an id no event is marked as joined, whoever
    its attendees are; for a user without one, exactly the events that have
    an attendee are.  On events with populated attendees the same test
    marks an event exactly when the user's id is the id of an attendee
    whose user was found. *)
Theorem joined_marks_ignore_attendance show profile (docs : list (Z * Event)) :
  (forall uid, Page.userJoinedEvents (Page.JString uid) (Page.listedEvent show <$> docs) = [])
  /\ Page.userJoinedEvents Page.JUndefined (Page.listedEvent show <$> docs)
     = (fun d : Z * Event => show d.1)
         <$> List.filter (fun d : Z * Event => negb (bool_decide (attendees d.2 = []))) docs
  /\ (forall uid,
        Page.userJoinedEvents (Page.JString uid) (Page.populatedEvent show profile <$> docs)
        = (fun d : Z * Event => show d.1)
            <$> List.filter (fun d : Z * Event =>
                               existsb (fun a => bool_decide (is_Some (profile a))
                                                 && String.eqb (show a) uid)
                                       (attendees d.2))
                            docs).
Proof.
  unfold Page.userJoinedEvents. split; [|split].
  - intros uid. induction docs as [|d rest IH]; [reflexivity|].
    cbn. replace (existsb _ _) with false; [exact IH|].
    symmetry. induction (attendees d.2) as [|a l IHl]; [reflexivity|]. cbn. exact IHl.
  - induction docs as [|d rest IH]; [reflexivity|].
    cbn. destruct (attendees d.2) as [|a l]; cbn; [exact IH|]. by rewrite IH.
  - intros uid. induction docs as [|d rest IH]; [reflexivity|].
    cbn.
    replace (existsb _ (omap _ (attendees d.2)))
      with (existsb (fun a => bool_decide (is_Some (profile a)) && String.eqb (show a) uid)
                    (attendees d.2)).
    2:{ induction (attendees d.2) as [|a l IHl]; [reflexivity|]. cbn.
        destruct (profile a) as [fields|]; cbn; [by rewrite IHl|exact IHl]. }
    destruct (existsb _ _); cbn; by rewrite IH.
Qed.

(** ** Editing an event *)

(** The instant the server reads from the edit form's untouched date. *)
Lemma instantOf_isoMinute tza t y mo d h mi :
  MyEvents.isoMinute t = Form.LocalStamp y mo d h mi ->
  Form.instantOf tza y mo d h mi = t - t mod 60000 - tza.
Proof.
  unfold MyEvents.isoMinute. cbv zeta. intros H. injection H as <- <- <- <- <-.
  unfold Form.instantOf, UTC, Date.MakeDate.
  replace (Date.MonthFromDay (Date.Day t) + 1 - 1) with (Date.MonthFromDay (Date.Day t)) by lia.
  rewrite MakeDay_same_month. unfold Date.Day, Date.msPerDay.
  Z.to_euclidean_division_equations. lia.
Qed.

(** X27.  The edit form prints the event's date in UTC and the server reads
    it back in its local time: the creator's edit that leaves the date
    field as [handleEdit] filled it, once it succeeds, stores the date cut
    to the minute and moved back by the server's offset from UTC, and
    leaves the category, the attendance, the status and the creator as they
    were. *)
Theorem edit_moves_date env actor id db db' r E :
  events db !! id = Some E ->
  MyEvents.fourDigitYear (dateTime E) = true ->
  updateEvent env actor id (MyEvents.putBody (localTZA env) (MyEvents.handleEdit E)) db
  = (db', r) ->
  succeeded r = true ->
  exists E',
    events db' !! id = Some E'
    /\ dateTime E' = dateTime E - dateTime E mod 60000 - localTZA env
    /\ category E' = category E /\ attendees E' = attendees E
    /\ attendeeCount E' = attendeeCount E /\ status E' = status E
    /\ creator E' = creator E.
Proof.
  intros HE _ H Hok.
  apply updateEvent_cases in H as [[_ Hf]|(E0 & HE0 & _ & _ & _ & -> & _)]; [congruence|].
  rewrite HE in HE0. injection HE0 as <-.
  eexists. cbn [events set_events]. rewrite lookup_insert_eq. split; [reflexivity|].
  unfold applyUpdate, sanitizeUpdate, MyEvents.putBody, MyEvents.handleEdit.
  cbn [u_title u_description u_location u_dateTime u_category u_status u_creator
       u_creatorName u_attendees u_attendeeCount u_maxAttendees
       Form.title Form.description Form.location Form.dateTime Form.category
       dateTime category attendees attendeeCount status creator
       default from_option Datatypes.id mbind option_bind castDate].
  split; [|by repeat split].
  destruct (MyEvents.isoMinute (dateTime E)) as [|y mo d h mi] eqn:Hiso;
    [discriminate Hiso|].
  cbn [mbind option_bind castDate default from_option Datatypes.id].
  exact (instantOf_isoMinute _ _ _ _ _ _ _ Hiso).
Qed.

Lemma edit_moves_date_witness :
  exists E',
    events (updateEvent eastEnv alice 1
              (MyEvents.putBody (localTZA eastEnv) (MyEvents.handleEdit meetup)) meetupDb).1
      !! 1 = Some E'
    /\ dateTime E' = dateTime meetup - dateTime meetup mod 60000 - localTZA eastEnv
    /\ category E' = category meetup /\ attendees E' = attendees meetup
    /\ attendeeCount E' = attendeeCount meetup /\ status E' = status meetup
    /\ creator E' = creator meetup.
Proof.
  refine (edit_moves_date eastEnv alice 1 meetupDb _ _ meetup eq_refl _ _ _).
  - vm_compute. reflexivity.
  - apply surjective_pairing.
  - vm_compute. reflexivity.
Defined.
